(** * SICK TiM561 lidar driver ([lidar.py]): model and verified properties

    The driver reads a byte stream from a socket, cuts it into telegrams
    delimited by STX/ETX, decodes each telegram's space-separated token grid,
    filters the decoded ranges by distance and by view angle, and stores the
    latest filtered scan in [self.ds].

    The Python functions are embedded as Rocq functions of the same name.
    - [bytes] objects are lists of 8-bit characters, [str] objects are
      [string]s.
    - Python [int] is [Z]; Python [float] is an IEEE 754 binary64 value,
      modelled with the Standard Library's [spec_float] (precision 53,
      [emax] 1024, round to nearest even).
    - A call that may raise returns [exn + A] ([inl e]: the exception [e]
      propagates) in ExtLib's error monad.
    - Generators over the socket are modelled on the finite prefix of bytes
      received so far: they produce the values yielded within that prefix. *)

From Stdlib Require Import String Ascii ZArith List Bool Lia.
From Stdlib Require Import Floats.SpecFloat.
From ExtLib Require Import Structures.Monad Data.Monads.EitherMonad.
Import ListNotations.
Import MonadNotation.
Local Open Scope monad_scope.
Local Open Scope Z_scope.

(** ** Python runtime model *)

Module Py.

(** Built-in exceptions this program can raise. *)
Inductive exn : Type :=
| IndexError
| ValueError
| UnicodeDecodeError
| OverflowError
| ZeroDivisionError
| TypeError.

Definition result (A : Type) : Type := (exn + A)%type.

#[global] Instance Monad_result : Monad result := Monad_either exn.

Definition raise {A : Type} (e : exn) : result A := inl e.

(** [bytes]: a sequence of 8-bit values. *)
Definition bytes : Type := list ascii.

(** The literal [b"..."]. *)
Definition b (s : string) : bytes := list_ascii_of_string s.

(** *** [bytes.split(sep)] for a one-byte separator *)

Fixpoint split (sep : ascii) (s : bytes) : list bytes :=
  match s with
  | [] => [[]]
  | c :: s' =>
      if Ascii.eqb c sep then [] :: split sep s'
      else match split sep s' with
           | [] => [[c]]
           | t :: ts => (c :: t) :: ts
           end
  end.

(** *** [bytes.decode('ascii')] *)

Definition is_ascii (c : ascii) : bool := (N_of_ascii c <? 128)%N.

Definition decode_ascii (s : bytes) : result string :=
  if forallb is_ascii s then ret (string_of_list_ascii s)
  else raise UnicodeDecodeError.

(** *** [x in s] for a one-byte [x] *)

Definition contains (c : ascii) (s : bytes) : bool :=
  existsb (Ascii.eqb c) s.

(** *** [int(s)] and [int(s, 16)] on [bytes]

    CPython's [PyLong_FromString]: optional leading whitespace, optional
    sign, for base 16 an optional [0x]/[0X] prefix (which may be followed by
    one underscore), then digits with single underscores between them, then
    optional trailing whitespace.  Anything else is a [ValueError].  In a
    base that is not a power of two, more than [max_str_digits] digits are a
    [ValueError] too. *)

Definition is_space (c : ascii) : bool :=
  let n := N_of_ascii c in
  ((n =? 32) || ((9 <=? n) && (n <=? 13)))%N.

Fixpoint lstrip (s : bytes) : bytes :=
  match s with
  | c :: s' => if is_space c then lstrip s' else s
  | [] => []
  end.

(** [_PyLong_DigitValue]: [0-9], [a-z] and [A-Z] have values 0..35. *)
Definition digit_value (c : ascii) : option Z :=
  let n := Z.of_N (N_of_ascii c) in
  if (48 <=? n) && (n <=? 57) then Some (n - 48)
  else if (97 <=? n) && (n <=? 122) then Some (n - 87)
  else if (65 <=? n) && (n <=? 90) then Some (n - 55)
  else None.

Definition is_underscore (c : ascii) : bool := Ascii.eqb c "_"%char.

(** The digit scan: consumes digits below [base] and underscores, rejects
    two underscores in a row and a trailing underscore; returns the value,
    the number of digits and the unread rest. *)
Fixpoint scan_digits (base : Z) (s : bytes) (prev_us : bool) (acc : Z) (n : nat)
  : option (Z * nat * bytes) :=
  let stop := if prev_us then None else Some (acc, n, s) in
  match s with
  | [] => stop
  | c :: s' =>
      if is_underscore c then
        if prev_us then None else scan_digits base s' true acc n
      else
        match digit_value c with
        | Some d =>
            if d <? base then scan_digits base s' false (acc * base + d) (S n)
            else stop
        | None => stop
        end
  end.

Definition strip_sign (s : bytes) : bool * bytes :=
  match s with
  | "+"%char :: s' => (false, s')
  | "-"%char :: s' => (true, s')
  | _ => (false, s)
  end.

Definition strip_prefix (base : Z) (s : bytes) : bytes :=
  match s with
  | "0"%char :: x :: s' =>
      if (base =? 16) && (Ascii.eqb x "x"%char || Ascii.eqb x "X"%char) then
        match s' with
        | "_"%char :: s'' => s''
        | _ => s'
        end
      else s
  | _ => s
  end.

(** The limit on the number of digits of a string converted to [int]
    ([sys.int_info.default_max_str_digits]); it applies to the bases that
    are not a power of two, and counts the digits, leading zeros included,
    without the underscores. *)
Definition max_str_digits : Z := 4300.

Definition digit_limit_applies (base : Z) : bool :=
  negb (Z.land base (base - 1) =? 0).

Definition too_many_digits (base : Z) (n : nat) : bool :=
  digit_limit_applies base && (max_str_digits <? Z.of_nat n).

Definition int_of_bytes (base : Z) (s : bytes) : result Z :=
  let '(neg, s1) := strip_sign (lstrip s) in
  let s2 := strip_prefix base s1 in
  match s2 with
  | "_"%char :: _ => raise ValueError
  | _ =>
      match scan_digits base s2 false 0 0 with
      | None => raise ValueError
      | Some (_, O, _) => raise ValueError
      | Some (v, n, rest) =>
          if too_many_digits base n then raise ValueError
          else
            match lstrip rest with
            | [] => ret (if neg then - v else v)
            | _ :: _ => raise ValueError
            end
      end
  end.

(** *** Indexing and slicing of lists *)

(** [l[i]] for a non-negative literal index [i]. *)
Definition getitem {A : Type} (l : list A) (i : nat) : result A :=
  match nth_error l i with
  | Some x => ret x
  | None => raise IndexError
  end.

(** Normalisation of one slice bound against the length. *)
Definition slice_bound (len i : Z) : Z :=
  if i <? 0 then Z.max 0 (i + len) else Z.min i len.

(** [l[start:stop]]: negative bounds count from the end, out-of-range
    bounds are clipped, an empty range gives the empty list. *)
Definition slice {A : Type} (l : list A) (start stop : Z) : list A :=
  let len := Z.of_nat (length l) in
  let lo := slice_bound len start in
  let hi := slice_bound len stop in
  firstn (Z.to_nat (hi - lo)) (skipn (Z.to_nat lo) l).

(** A list comprehension [[f x for x in l]]: elements are evaluated left to
    right and the first exception propagates. *)
Fixpoint comprehension {A B : Type} (f : A -> result B) (l : list A) : result (list B) :=
  match l with
  | [] => ret []
  | x :: l' => y <- f x ;; ys <- comprehension f l' ;; ret (y :: ys)
  end.

(** *** [float]: IEEE 754 binary64 *)

Definition float : Type := spec_float.

Definition prec : Z := 53.
Definition emax : Z := 1024.

(** An [int] as an operand of a correctly rounded operation. *)
Definition int_operand (z : Z) : float :=
  match z with
  | Z0 => S754_zero false
  | Zpos p => S754_finite false p 0
  | Zneg p => S754_finite true p 0
  end.

(** Conversion of a small [int] constant to [float] (exact below 2^53). *)
Definition float_of_int (z : Z) : float := binary_normalize prec emax z 0 false.

(** [a / b] on two [int]s: the exact quotient rounded to nearest even;
    [ZeroDivisionError] for [b = 0], [OverflowError] when the rounded
    quotient is not finite. *)
Definition truediv (a b : Z) : result float :=
  if b =? 0 then raise ZeroDivisionError
  else match SFdiv prec emax (int_operand a) (int_operand b) with
       | S754_infinity _ => raise OverflowError
       | q => ret q
       end.

(** [x * y] on two [float]s. *)
Definition fmul (x y : float) : float := SFmul prec emax x y.

(** [x / y] on two [float]s. *)
Definition fdiv (x y : float) : result float :=
  match y with
  | S754_zero _ => raise ZeroDivisionError
  | _ => ret (SFdiv prec emax x y)
  end.

(** [x < y] and [x <= y] on two [float]s (false when either is a NaN). *)
Definition flt (x y : float) : bool := SFltb x y.
Definition fle (x y : float) : bool := SFleb x y.

(** A number passed where the source expects one: an [int] or a [float]. *)
Inductive number : Type :=
| Int (z : Z)
| Float (x : float).

(** [v / d] for a number [v] and an [int] constant [d]. *)
Definition number_truediv (v : number) (d : Z) : result float :=
  match v with
  | Int z => truediv z d
  | Float x => fdiv x (float_of_int d)
  end.

(** [int(x)]: truncation towards zero. *)
Definition int_of_float (x : float) : result Z :=
  match x with
  | S754_nan => raise ValueError
  | S754_infinity _ => raise OverflowError
  | S754_zero _ => ret 0
  | S754_finite s m e =>
      let v := Z.shiftl (Zpos m) e in
      ret (if s then - v else v)
  end.

End Py.

Import Py.

(** ** The program *)

(** *** Framing: [bytes_from_socket] and [datagrams_from_socket] *)

Definition STX : ascii := "002"%char.
Definition ETX : ascii := "003"%char.

(** The socket is the list of chunks that successive [recv(256)] calls
    return; [bytes_from_socket] yields their bytes one at a time. *)
Definition bytes_from_socket (chunks : list bytes) : bytes := concat chunks.

(** Position of [datagrams_from_socket] inside its [while True] body: in the
    first [for] loop (consuming bytes until STX) or in the second one
    (storing bytes in [datagram] until ETX). *)
Inductive position : Type :=
| UntilSTX
| UntilETX (datagram : bytes).

(** The datagrams yielded while the bytes of [stream] are consumed. *)
Fixpoint datagrams_from (pos : position) (stream : bytes) : list bytes :=
  match stream with
  | [] => []
  | byte :: rest =>
      match pos with
      | UntilSTX =>
          if Ascii.eqb byte STX then datagrams_from (UntilETX []) rest
          else datagrams_from UntilSTX rest
      | UntilETX datagram =>
          if Ascii.eqb byte ETX then datagram :: datagrams_from UntilSTX rest
          else datagrams_from (UntilETX (datagram ++ [byte])) rest
      end
  end.

Definition datagrams_from_socket (chunks : list bytes) : list bytes :=
  datagrams_from UntilSTX (bytes_from_socket chunks).

(** *** [parse_number] *)

Definition parse_number (nbr_str : bytes) : result Z :=
  if contains "+" nbr_str || contains "-" nbr_str then int_of_bytes 10 nbr_str
  else int_of_bytes 16 nbr_str.

(** *** [decode_datagram] *)

(** The [header] dictionary; its keys are fixed, so it is a record. *)
Record Header : Type := mkHeader {
  TypeOfCommand : string;
  Command : string;
  VersionNumber : Z;
  DeviceNumber : Z;
  SerialNumber : string;
  DeviceStatus1 : Z;
  DeviceStatus2 : Z;
  TelegramCounter : Z;
  TimeSinceStartup : Z;
  TimeOfTransmission : Z;
  AngularStepWidth : Z;
  NumberOfData : Z;
  Data : list float
}.

(** One element of the [Data] comprehension: [parse_number(x) / 1000]. *)
Definition sample (x : bytes) : result float :=
  n <- parse_number x ;; truediv n 1000.

(** The test of the [if] before [return None]. *)
Definition rejected (typeOfCommand command : string) (status1 status2 : Z) : bool :=
  negb (String.eqb typeOfCommand "sSN")
  || negb (String.eqb command "LMDscandata")
  || negb (status1 =? 0)
  || negb (status2 =? 0).

Definition decode_datagram (datagram : bytes) : result (option Header) :=
  let items := split " " datagram in
  typeOfCommand <- (i <- getitem items 0 ;; decode_ascii i) ;;
  command <- (i <- getitem items 1 ;; decode_ascii i) ;;
  versionNumber <- (i <- getitem items 2 ;; parse_number i) ;;
  deviceNumber <- (i <- getitem items 3 ;; parse_number i) ;;
  serialNumber <- (i <- getitem items 4 ;; decode_ascii i) ;;
  deviceStatus1 <- (i <- getitem items 5 ;; parse_number i) ;;
  deviceStatus2 <- (i <- getitem items 6 ;; parse_number i) ;;
  telegramCounter <- (i <- getitem items 7 ;; parse_number i) ;;
  timeSinceStartup <- (i <- getitem items 9 ;; parse_number i) ;;
  timeOfTransmission <- (i <- getitem items 10 ;; parse_number i) ;;
  angularStepWidth <- (i <- getitem items 24 ;; parse_number i) ;;
  numberOfData <- (i <- getitem items 25 ;; parse_number i) ;;
  data <- comprehension sample (slice items 26 (26 + numberOfData)) ;;
  if rejected typeOfCommand command deviceStatus1 deviceStatus2 then ret None
  else ret (Some (mkHeader typeOfCommand command versionNumber deviceNumber
                           serialNumber deviceStatus1 deviceStatus2
                           telegramCounter timeSinceStartup timeOfTransmission
                           angularStepWidth numberOfData data)).

(** *** The [lidar] object *)

(** A one-dimensional [float64] array, by value. *)
Definition ndarray : Type := list float.

(** [np.array(l)] on a list of floats. *)
Definition np_array (l : list float) : ndarray := l.

(** [a > c] and [a < c] for an array [a] and a scalar [c]. *)
Definition np_gt (a : ndarray) (c : float) : list bool := map (fun v => flt c v) a.
Definition np_lt (a : ndarray) (c : float) : list bool := map (fun v => flt v c) a.

(** [np.where(cond, x, y)] for an array [x] and a scalar [y]: a new array. *)
Definition np_where (cond : list bool) (x : ndarray) (y : float) : ndarray :=
  map (fun cv : bool * float => if fst cv then snd cv else y) (combine cond x).

(** The attributes of a [lidar] instance that the processing reads or
    writes.  [max_distance] is the [int] 3 in the source; the comparison with
    a [float64] array converts it to 3.0. *)
Record lidar : Type := mkLidar {
  stop : bool;
  ds : option ndarray;
  min_distance : float;
  max_distance : float;
  datagram_size : Z;
  sensor_angle : Z
}.

(** The literal [0.1]: the binary64 value nearest to 1/10. *)
Definition lit_0_1 : float := S754_finite false 7205759403792794 (-56).

(** The scalar [-1] stored into a [float64] array. *)
Definition sentinel : float := float_of_int (-1).

(** The object after [__init__]. *)
Definition init : lidar :=
  {| stop := false;
     ds := None;
     min_distance := lit_0_1;
     max_distance := float_of_int 3;
     datagram_size := 811;
     sensor_angle := 270 |}.

Definition set_ds (self : lidar) (v : ndarray) : lidar :=
  {| stop := stop self;
     ds := Some v;
     min_distance := min_distance self;
     max_distance := max_distance self;
     datagram_size := datagram_size self;
     sensor_angle := sensor_angle self |}.

(** [get] and [kill]. *)
Definition get (self : lidar) : option ndarray := ds self.

Definition kill (self : lidar) : lidar :=
  {| stop := true;
     ds := ds self;
     min_distance := min_distance self;
     max_distance := max_distance self;
     datagram_size := datagram_size self;
     sensor_angle := sensor_angle self |}.

(** *** [clean_datagram_by_distance] *)

Definition clean_datagram_by_distance (self : lidar) (ds : ndarray) : ndarray :=
  let ds := np_where (np_gt ds (min_distance self)) ds sentinel in
  let ds := np_where (np_lt ds (max_distance self)) ds sentinel in
  ds.

(** *** [clean_datagram_by_angle] *)

(** [int((self.datagram_size/self.sensor_angle)*(viewAngle/2))] *)
Definition cleanArraySize (self : lidar) (viewAngle : number) : result Z :=
  ratio <- truediv (datagram_size self) (sensor_angle self) ;;
  half <- number_truediv viewAngle 2 ;;
  int_of_float (fmul ratio half).

Definition clean_datagram_by_angle (self : lidar) (ds : ndarray) (viewAngle : number)
  : result ndarray :=
  cleanArraySize <- cleanArraySize self viewAngle ;;
  let midpoint := Z.of_nat (length ds) / 2 in
  let start := midpoint - cleanArraySize / 2 in
  let start := if cleanArraySize mod 2 =? 0 then start - 1 else start in
  let end_ := start + cleanArraySize in
  ret (slice ds start end_).

(** Binding of the arguments of a call [self.clean_datagram_by_angle(...)]:
    [ds] has no default, so a call that does not supply it raises
    [TypeError]; [viewAngle] defaults to 30. *)
Definition call_clean_datagram_by_angle (self : lidar)
    (ds : option ndarray) (viewAngle : option number) : result ndarray :=
  match ds with
  | None => raise TypeError
  | Some ds =>
      clean_datagram_by_angle self ds
        (match viewAngle with Some v => v | None => Int 30 end)
  end.

(** *** [run] *)

(** The body of the [while True] loop after [next(self.datagrams_generator)]
    has returned [datagram].  The last statement is
    [self.ds = self.clean_datagram_by_angle(viewAngle=180)]: the call passes
    no [ds]. *)
Definition run_body (self : lidar) (datagram : bytes) : result lidar :=
  decoded <- decode_datagram datagram ;;
  match decoded with
  | None => ret self
  | Some decoded =>
      let ds := np_array (Data decoded) in
      let ds := clean_datagram_by_distance self ds in
      v <- call_clean_datagram_by_angle self None (Some (Int 180)) ;;
      ret (set_ds self v)
  end.

(** How the thread leaves (or does not leave) the loop:
    [Stopped]: [self.stop] was seen and the loop hit [break];
    [Raised e]: an exception left [run] uncaught and ended the thread;
    [Waiting]: [next] is blocked until more bytes arrive. *)
Inductive outcome : Type :=
| Stopped
| Raised (e : exn)
| Waiting.

(** [run] on the datagrams the generator will yield: the final object, the
    outcome, and the datagrams that were never taken from the generator.
    (The start-up [sleep] and the [print] do not touch the object; [self.stop]
    is read at the top of every iteration and has the value [kill] gave it
    before the run.) *)
Fixpoint run (self : lidar) (datagrams : list bytes) : lidar * outcome * list bytes :=
  if stop self then (self, Stopped, datagrams)
  else
    match datagrams with
    | [] => (self, Waiting, [])
    | datagram :: rest =>
        match run_body self datagram with
        | inl e => (self, Raised e, rest)
        | inr self' => run self' rest
        end
    end.

(** ** Test data *)

(** A scan telegram with three samples. *)
Definition telegram3 : bytes :=
  b "sSN LMDscandata 1 1 B96518 0 0 7F3A 7F3D 2A1B4C 2A1F00 0 0 7 0 0 1388 168 0 1 DIST1 3F800000 00000000 FFF92230 D05 3 1A 2B 3C".

(** A telegram that holds a single token. *)
Definition one_token : bytes := b "sSN".

(** *** Arrays as heap objects

    A name such as [ds] holds a reference to an array object; [np.where]
    builds a new object and the assignment rebinds the name.  This layer is
    used to state that the input array is left as it was. *)

Module Store.

Definition ref : Type := nat.
Definition heap : Type := list ndarray.

Definition deref (h : heap) (r : ref) : option ndarray := nth_error h r.

Definition alloc (h : heap) (a : ndarray) : heap * ref := (h ++ [a], length h).

(** [np.where(x > c, x, y)] and [np.where(x < c, x, y)] on a reference. *)
Definition where_gt (h : heap) (x : ref) (c y : float) : option (heap * ref) :=
  match deref h x with
  | Some a => Some (alloc h (np_where (np_gt a c) a y))
  | None => None
  end.

Definition where_lt (h : heap) (x : ref) (c y : float) : option (heap * ref) :=
  match deref h x with
  | Some a => Some (alloc h (np_where (np_lt a c) a y))
  | None => None
  end.

Definition clean_datagram_by_distance (self : lidar) (h : heap) (ds : ref)
  : option (heap * ref) :=
  match where_gt h ds (min_distance self) sentinel with
  | Some (h, ds) => where_lt h ds (max_distance self) sentinel
  | None => None
  end.

End Store.

(** ** Specification vocabulary *)

(** A [+] or [-] byte somewhere in the token, and as its first byte. *)
Definition has_sign (tok : bytes) : bool := contains "+" tok || contains "-" tok.

Definition has_leading_sign (tok : bytes) : bool :=
  match tok with
  | c :: _ => Ascii.eqb c "+" || Ascii.eqb c "-"
  | [] => false
  end.

(** Digit strings and their value in a base. *)
Definition is_digit (base : Z) (c : ascii) : bool :=
  match digit_value c with
  | Some d => d <? base
  | None => false
  end.

Definition digit_of (c : ascii) : Z :=
  match digit_value c with
  | Some d => d
  | None => 0
  end.

Definition value_from (base : Z) (acc : Z) (digits : bytes) : Z :=
  fold_left (fun a c => a * base + digit_of c) digits acc.

Definition value (base : Z) (digits : bytes) : Z := value_from base 0 digits.

(** What the distance filter does to one sample. *)
Definition keep_or_sentinel (lo hi x : float) : float :=
  if flt lo x && flt x hi then x else sentinel.

(** What holds at a position: the bytes stored so far hold no ETX. *)
Definition position_ok (pos : position) : Prop :=
  match pos with
  | UntilSTX => True
  | UntilETX datagram => contains ETX datagram = false
  end.

(** The horizontal tab, one of the bytes [int] skips as white space. *)
Definition TAB : ascii := "009"%char.

(** The token grid: the field read from a token, as text or as a number. *)
Definition text_at (items : list bytes) (i : nat) (v : string) : Prop :=
  exists t, nth_error items i = Some t /\ decode_ascii t = inr v.

Definition number_at (items : list bytes) (i : nat) (v : Z) : Prop :=
  exists t, nth_error items i = Some t /\ parse_number t = inr v.

(** A record whose every field is the decoded token of its grid position,
    the samples being the tokens from index 26 on. *)
Definition populated (items : list bytes) (h : Header) : Prop :=
  text_at items 0 (TypeOfCommand h)
  /\ text_at items 1 (Command h)
  /\ number_at items 2 (VersionNumber h)
  /\ number_at items 3 (DeviceNumber h)
  /\ text_at items 4 (SerialNumber h)
  /\ number_at items 5 (DeviceStatus1 h)
  /\ number_at items 6 (DeviceStatus2 h)
  /\ number_at items 7 (TelegramCounter h)
  /\ number_at items 9 (TimeSinceStartup h)
  /\ number_at items 10 (TimeOfTransmission h)
  /\ number_at items 24 (AngularStepWidth h)
  /\ number_at items 25 (NumberOfData h)
  /\ Forall2 (fun t v => sample t = inr v)
             (slice items 26 (26 + NumberOfData h)) (Data h).

(** The validity gate on a record: what [decode_datagram] returns for it. *)
Definition gate (h : Header) : option Header :=
  if rejected (TypeOfCommand h) (Command h) (DeviceStatus1 h) (DeviceStatus2 h)
  then None else Some h.

(** Conditions on a token grid. *)
Definition numeric_indices : list nat := [2; 3; 5; 6; 7; 9; 10; 24; 25]%nat.
Definition text_indices : list nat := [0; 1; 4]%nat.

Definition parses (t : bytes) : bool :=
  match parse_number t with
  | inr _ => true
  | inl _ => false
  end.

Definition token_ok (ok : bytes -> bool) (items : list bytes) (i : nat) : bool :=
  match nth_error items i with
  | Some t => ok t
  | None => false
  end.

(** The tokens that the declared count selects as samples. *)
Definition sample_tokens (items : list bytes) : list bytes :=
  match nth_error items 25 with
  | Some t =>
      match parse_number t with
      | inr n => slice items 26 (26 + n)
      | inl _ => []
      end
  | None => []
  end.

Definition grid_long_enough (items : list bytes) : bool :=
  (26 <=? length items)%nat.

Definition numeric_tokens_parse (items : list bytes) : bool :=
  forallb (token_ok parses items) numeric_indices
  && forallb parses (sample_tokens items).

Definition text_tokens_ascii (items : list bytes) : bool :=
  forallb (token_ok (forallb is_ascii) items) text_indices.

(** Every sample token that parses has a quotient by 1000 that is a finite
    [float]. *)
Definition samples_fit (items : list bytes) : bool :=
  forallb (fun t => match parse_number t with
                    | inr n => match truediv n 1000 with
                               | inr _ => true
                               | inl _ => false
                               end
                    | inl _ => true
                    end) (sample_tokens items).

(** [telegram3] with the byte 0xFF as its serial number. *)
Definition telegram_serial_ff : bytes :=
  b "sSN LMDscandata 1 1 " ++ ["255"%char]
    ++ b " 0 0 7F3A 7F3D 2A1B4C 2A1F00 0 0 7 0 0 1388 168 0 1 DIST1 3F800000 00000000 FFF92230 D05 3 1A 2B 3C".

(** A scan telegram that declares five samples and carries three. *)
Definition telegram_5_of_3 : bytes :=
  b "sSN LMDscandata 1 1 B96518 0 0 7F3A 7F3D 2A1B4C 2A1F00 0 0 7 0 0 1388 168 0 1 DIST1 3F800000 00000000 FFF92230 D05 5 1A 2B 3C".

(** A scan telegram whose single sample token is [+10]. *)
Definition telegram_plus10 : bytes :=
  b "sSN LMDscandata 1 1 B96518 0 0 7F3A 7F3D 2A1B4C 2A1F00 0 0 7 0 0 1388 168 0 1 DIST1 3F800000 00000000 FFF92230 D05 1 +10".

(** A telegram is malformed when its grid is too short or one of its numeric
    tokens does not parse. *)
Definition malformed (items : list bytes) : Prop :=
  grid_long_enough items = false \/ numeric_tokens_parse items = false.

(** The [float] literal whose decimal value is [num/den]: the binary64 value
    nearest to it. *)
Definition lit (num den : Z) : float :=
  SFdiv prec emax (int_operand num) (int_operand den).

(** The view angles of the claim: more than 0 and at most 270 degrees, as an
    [int] or as a (valid binary64) [float]. *)
Definition in_range (viewAngle : number) : Prop :=
  match viewAngle with
  | Int z => 0 < z <= 270
  | Float x =>
      valid_binary prec emax x = true
      /\ flt (float_of_int 0) x = true
      /\ fle x (float_of_int 270) = true
  end.

(** The window of the angle filter on 811 samples: its length for a whole
    number of degrees, [floor((811/270) * (V/2))], and its first index for a
    given length, [811 // 2 - length // 2], less one for an even length. *)
Definition windowLength (degrees : Z) : Z := 811 * degrees / 540.

Definition windowStart (count : Z) : Z :=
  811 / 2 - count / 2 - (if Z.even count then 1 else 0).

(** The [float] [811/270], i.e. [datagram_size/sensor_angle] of [init]. *)
Definition ratio_811_270 : float := S754_finite false 6763739440365689 (-51).

(** The position [datagrams_from_socket] has reached once the bytes of
    [stream] are consumed (the loop it is in, and the bytes stored so far). *)
Fixpoint position_after (pos : position) (stream : bytes) : position :=
  match stream with
  | [] => pos
  | byte :: rest =>
      match pos with
      | UntilSTX =>
          if Ascii.eqb byte STX then position_after (UntilETX []) rest
          else position_after UntilSTX rest
      | UntilETX datagram =>
          if Ascii.eqb byte ETX then position_after UntilSTX rest
          else position_after (UntilETX (datagram ++ [byte])) rest
      end
  end.

(** The number of bytes of [s] equal to [c]. *)
Definition occurrences (c : ascii) (s : bytes) : nat :=
  length (filter (Ascii.eqb c) s).

(** The bytes a token with a sign may consist of if [int] is to accept it. *)
Definition signed_byte (c : ascii) : bool :=
  is_space c || Ascii.eqb c "+" || Ascii.eqb c "-" || is_digit 10 c
  || is_underscore c.

(** The exceptions that reading a telegram can raise. *)
Definition decode_error (e : exn) : bool :=
  match e with
  | IndexError | ValueError | UnicodeDecodeError | OverflowError => true
  | ZeroDivisionError | TypeError => false
  end.

(** A [float] that is a number: a zero or a finite value. *)
Definition is_finite (x : float) : bool :=
  match x with
  | S754_zero _ | S754_finite _ _ _ => true
  | S754_infinity _ | S754_nan => false
  end.

(** The sign bit of a [float] ([false] for a NaN). *)
Definition sign_bit (x : float) : bool :=
  match x with
  | S754_zero s | S754_finite s _ _ | S754_infinity s => s
  | S754_nan => false
  end.

(** [telegram3] as the answer to a read request: another command type. *)
Definition telegram_sRA : bytes :=
  b "sRA LMDscandata 1 1 B96518 0 0 7F3A 7F3D 2A1B4C 2A1F00 0 0 7 0 0 1388 168 0 1 DIST1 3F800000 00000000 FFF92230 D05 3 1A 2B 3C".

(** [telegram3] with other values in the fields that are not decoded. *)
Definition telegram3_reserved : bytes :=
  b "sSN LMDscandata 1 1 B96518 0 0 7F3A FFFF 2A1B4C 2A1F00 3 3 0 1 1 9C4 2D0 1 0 DIST2 40000000 00000001 0 D05 3 1A 2B 3C".

(** [floor((811/270) * (x/2))] in exact arithmetic, for a finite [float]
    [x] taken as the rational number it represents. *)
Definition exactWindowLength (x : float) : Z :=
  match x with
  | S754_finite s m e =>
      let numerator := 811 * (if s then Zneg m else Zpos m) in
      if 0 <=? e then numerator * 2 ^ e / 540
      else numerator / (540 * 2 ^ (- e))
  | _ => 0
  end.

(** The [float] 3.3292231812577064. *)
Definition view_angle_3_33 : float := S754_finite false 7496744139272712 (-51).

(** * Verified properties *)

(** ** The runtime model on examples *)

Example split_ex : split " " (b "a b  c") = [b "a"; b "b"; b ""; b "c"].
Proof. reflexivity. Qed.

Example split_empty_ex : split " " (b "") = [b ""].
Proof. reflexivity. Qed.

Example int_of_bytes_ex :
  map (int_of_bytes 16) [b "2A"; b "0x2a"; b "1_0"; b "-ff"; b "0x"; b "1__0"; b ""]
  = [inr 42; inr 42; inr 16; inr (-255); inl ValueError; inl ValueError; inl ValueError].
Proof. reflexivity. Qed.

(** The limit of 4300 digits holds in base 10 and not in base 16. *)
Example int_of_bytes_limit_ex :
  int_of_bytes 10 (repeat "1"%char 4301) = inl ValueError
  /\ int_of_bytes 10 ("+"%char :: repeat "0"%char 4301) = inl ValueError
  /\ int_of_bytes 10 (repeat "0"%char 4300) = inr 0
  /\ int_of_bytes 16 (repeat "0"%char 4301) = inr 0.
Proof. repeat split; vm_compute; reflexivity. Qed.

Example slice_ex :
  (slice [1; 2; 3; 4; 5] 1 3, slice [1; 2; 3; 4; 5] 3 9, slice [1; 2; 3; 4; 5] 3 (-1),
   slice [1; 2; 3; 4; 5] (-2) 5, slice [1; 2; 3; 4; 5] 4 2)
  = ([2; 3], [4; 5], [4], [4; 5], []).
Proof. reflexivity. Qed.

(** [/] on two [int]s is the real quotient, rounded: [1500 / 1000] is 1.5, and
    a quotient too large for a [float] raises. *)
Example truediv_ex :
  truediv 1500 1000 = inr (lit 3 2)
  /\ truediv 26 1000 = inr (S754_finite false 7493989779944505 (-58))
  /\ truediv (16 ^ 300) 1000 = inl OverflowError.
Proof. repeat split; vm_compute; reflexivity. Qed.

Example lit_0_1_ex : lit_0_1 = lit 1 10.
Proof. vm_compute. reflexivity. Qed.

Example ratio_811_270_ex : truediv 811 270 = inr ratio_811_270.
Proof. vm_compute. reflexivity. Qed.

(** The window length for the view angles 180, 22.5 and 270.0. *)
Example cleanArraySize_ex :
  cleanArraySize init (Int 180) = inr 270
  /\ cleanArraySize init (Float (lit 45 2)) = inr 33
  /\ cleanArraySize init (Float (float_of_int 270)) = inr 405.
Proof. repeat split; vm_compute; reflexivity. Qed.

(** ** Framing *)

Section Framing.

Lemma contains_app (c : ascii) (s t : bytes) :
  contains c (s ++ t) = contains c s || contains c t.
Proof. unfold contains. apply existsb_app. Qed.

Lemma datagrams_from_no_ETX (stream : bytes) :
  forall pos, position_ok pos ->
    Forall (fun d => contains ETX d = false) (datagrams_from pos stream).
Proof.
  induction stream as [|byte rest IH]; intros pos Hpos; simpl.
  - constructor.
  - destruct pos as [|datagram].
    + destruct (Ascii.eqb byte STX); apply IH; simpl; auto.
    + destruct (Ascii.eqb byte ETX) eqn:E.
      * constructor; [exact Hpos | apply IH; exact I].
      * apply IH. cbn [position_ok] in *. rewrite contains_app, Hpos.
        unfold contains. cbn [existsb orb].
        rewrite Ascii.eqb_sym, E. reflexivity.
Qed.

(** A well-formed [STX payload ETX] sequence yields exactly [payload]. *)
Lemma datagrams_from_payload (payload rest : bytes) :
  contains ETX payload = false ->
  forall datagram,
    datagrams_from (UntilETX datagram) (payload ++ ETX :: rest)
    = (datagram ++ payload) :: datagrams_from UntilSTX rest.
Proof.
  unfold contains. induction payload as [|c payload IH]; intros H datagram.
  - cbn [app datagrams_from]. rewrite Ascii.eqb_refl, app_nil_r. reflexivity.
  - cbn [existsb] in H. apply orb_false_iff in H. destruct H as (Hc & H).
    cbn [app datagrams_from]. rewrite Ascii.eqb_sym, Hc.
    rewrite (IH H). rewrite <- app_assoc. reflexivity.
Qed.

End Framing.

(** C3, as amended.  Every datagram that [datagrams_from_socket] yields is free
    of the ETX byte 0x03; an STX byte 0x02 that arrives while a datagram is
    being stored is appended to it like any other byte. *)
Theorem datagrams_from_socket_no_ETX (chunks : list bytes) :
  Forall (fun d => contains ETX d = false) (datagrams_from_socket chunks)
  /\ (forall datagram rest,
         datagrams_from (UntilETX datagram) (STX :: rest)
         = datagrams_from (UntilETX (datagram ++ [STX])) rest).
Proof.
  split.
  - apply datagrams_from_no_ETX. exact I.
  - reflexivity.
Qed.

(** C3, counterexample.  On the stream 02 02 41 03 the extractor yields the
    datagram 02 41, which contains the byte 0x02. *)
Lemma datagrams_from_socket_yields_STX :
  datagrams_from_socket [[STX; STX; "A"%char; ETX]] = [[STX; "A"%char]]
  /\ contains STX [STX; "A"%char] = true.
Proof. split; reflexivity. Qed.

(** ** The runtime model: general facts *)

Section Runtime.

Lemma bind_inr {A B : Type} (c : result A) (k : A -> result B) (v : B) :
  bind c k = inr v -> exists x, c = inr x /\ k x = inr v.
Proof.
  destruct c as [e|x]; cbn; intros H.
  - discriminate.
  - exists x. auto.
Qed.

Lemma comprehension_Forall2 {A B : Type} (f : A -> result B) (l : list A) :
  forall ys, comprehension f l = inr ys -> Forall2 (fun x y => f x = inr y) l ys.
Proof.
  induction l as [|x l IH]; intros ys H; cbn in H.
  - injection H as <-. constructor.
  - apply bind_inr in H. destruct H as (y & Hy & H).
    apply bind_inr in H. destruct H as (ys' & Hys & H).
    injection H as <-. constructor; auto.
Qed.

Lemma comprehension_all {A B : Type} (f : A -> result B) (l : list A) :
  Forall (fun x => exists y, f x = inr y) l -> exists ys, comprehension f l = inr ys.
Proof.
  induction 1 as [|x l (y & Hy) _ (ys & Hys)]; cbn.
  - eexists. reflexivity.
  - rewrite Hy. cbn. rewrite Hys. cbn. eexists. reflexivity.
Qed.

(** Per-byte facts about digits, by enumeration of the 256 bytes. *)
Lemma digit_byte (c : ascii) :
  is_digit 16 c = true ->
  is_space c = false /\ is_underscore c = false
  /\ Ascii.eqb c "+" = false /\ Ascii.eqb c "-" = false
  /\ Ascii.eqb c "x" = false /\ Ascii.eqb c "X" = false
  /\ Ascii.eqb "+" c = false /\ Ascii.eqb "-" c = false.
Proof.
  destruct c as [[] [] [] [] [] [] [] []]; intros H; vm_compute in H;
    try discriminate H; vm_compute; repeat split.
Qed.

Lemma is_digit_10_16 (c : ascii) : is_digit 10 c = true -> is_digit 16 c = true.
Proof.
  unfold is_digit. destruct (digit_value c) as [d|]; [|discriminate].
  intros H. apply Z.ltb_lt in H. apply Z.ltb_lt. lia.
Qed.

Lemma digit_value_nonneg (c : ascii) (d : Z) : digit_value c = Some d -> 0 <= d.
Proof.
  unfold digit_value.
  repeat match goal with
         | |- context [if ?t then _ else _] => destruct t eqn:?
         end; intros H; inversion H; subst; clear H;
    repeat match goal with
           | H : _ && _ = true |- _ => apply andb_true_iff in H; destruct H
           | H : (_ <=? _) = true |- _ => apply Z.leb_le in H
           end; lia.
Qed.

Lemma scan_digits_digits (base : Z) (s : bytes) :
  forallb (is_digit base) s = true -> base <= 16 ->
  forall acc n,
    scan_digits base s false acc n = Some (value_from base acc s, (n + length s)%nat, []).
Proof.
  intros Hs Hb. induction s as [|c s IH]; intros acc n.
  - cbn. rewrite Nat.add_0_r. reflexivity.
  - cbn [forallb] in Hs. apply andb_true_iff in Hs. destruct Hs as (Hc & Hs).
    assert (H16 : is_digit 16 c = true).
    { unfold is_digit in *. destruct (digit_value c); [|discriminate].
      apply Z.ltb_lt in Hc. apply Z.ltb_lt. lia. }
    destruct (digit_byte c H16) as (_ & Hus & _).
    cbn [scan_digits]. rewrite Hus.
    unfold is_digit in Hc. unfold value_from. cbn [fold_left]. unfold digit_of.
    destruct (digit_value c) as [d|]; [|discriminate].
    rewrite Hc. rewrite (IH Hs). unfold value_from.
    replace (S n + length s)%nat with (n + length (c :: s))%nat by (cbn; lia).
    reflexivity.
Qed.

Lemma scan_digits_nonneg (base : Z) (s : bytes) :
  0 <= base ->
  forall prev acc n v m rest,
    0 <= acc -> scan_digits base s prev acc n = Some (v, m, rest) -> 0 <= v.
Proof.
  intros Hb. induction s as [|c s IH]; intros prev acc n v m rest Hacc H.
  - cbn in H. destruct prev; inversion H; subst; assumption.
  - cbn [scan_digits] in H. destruct (is_underscore c).
    + destruct prev; [discriminate|]. eapply IH; eauto.
    + destruct (digit_value c) as [d|] eqn:Hd.
      * destruct (d <? base).
        -- eapply IH; [|exact H]. apply digit_value_nonneg in Hd. nia.
        -- destruct prev; inversion H; subst; assumption.
      * destruct prev; inversion H; subst; assumption.
Qed.

Lemma lstrip_contains (c : ascii) (s : bytes) :
  contains c (lstrip s) = true -> contains c s = true.
Proof.
  unfold contains. induction s as [|a s IH]; cbn [lstrip]; [auto|].
  destruct (is_space a); [|auto].
  intros H. cbn [existsb]. rewrite (IH H). apply orb_true_r.
Qed.

Lemma strip_sign_neg (s s' : bytes) :
  strip_sign s = (true, s') -> contains "-" s = true.
Proof.
  destruct s as [|c s]; [discriminate|].
  destruct c as [[] [] [] [] [] [] [] []]; cbn; intros H;
    try discriminate H; reflexivity.
Qed.

Lemma strip_prefix_10 (s : bytes) : strip_prefix 10 s = s.
Proof.
  destruct s as [|c s]; [reflexivity|].
  destruct c as [[] [] [] [] [] [] [] []]; try reflexivity.
  destruct s; reflexivity.
Qed.

Lemma strip_prefix_digits (s : bytes) :
  forallb (is_digit 16) s = true -> strip_prefix 16 s = s.
Proof.
  destruct s as [|c s]; [reflexivity|].
  destruct c as [[] [] [] [] [] [] [] []]; try reflexivity.
  destruct s as [|x s]; [reflexivity|].
  cbn [forallb]. intros H. apply andb_true_iff in H. destruct H as (_ & H).
  apply andb_true_iff in H. destruct H as (Hx & _).
  destruct (digit_byte x Hx) as (_ & _ & _ & _ & Hx1 & Hx2 & _).
  cbn [strip_prefix]. rewrite Hx1, Hx2. reflexivity.
Qed.

Lemma digits_no_sign (s : bytes) :
  forallb (is_digit 16) s = true -> has_sign s = false.
Proof.
  unfold has_sign, contains. induction s as [|c s IH]; [reflexivity|].
  cbn [forallb existsb]. intros H. apply andb_true_iff in H. destruct H as (Hc & Hs).
  destruct (digit_byte c Hc) as (_ & _ & _ & _ & _ & _ & Hp & Hm).
  rewrite Hp, Hm. cbn [orb]. apply (IH Hs).
Qed.

(** [int(s, base)] on a non-empty string of digits. *)
Lemma int_of_bytes_digits (base : Z) (c : ascii) (s : bytes) :
  forallb (is_digit base) (c :: s) = true -> base <= 16 ->
  strip_prefix base (c :: s) = c :: s ->
  too_many_digits base (length (c :: s)) = false ->
  int_of_bytes base (c :: s) = inr (value base (c :: s)).
Proof.
  intros Hs Hb Hp Hlimit.
  assert (H16 : is_digit 16 c = true).
  { cbn [forallb] in Hs. apply andb_true_iff in Hs. destruct Hs as (Hc & _).
    unfold is_digit in *. destruct (digit_value c); [|discriminate].
    apply Z.ltb_lt in Hc. apply Z.ltb_lt. lia. }
  destruct (digit_byte c H16) as (Hsp & Hus & Hplus & Hminus & _).
  unfold int_of_bytes. cbn [lstrip]. rewrite Hsp.
  assert (Hss : strip_sign (c :: s) = (false, c :: s)).
  { clear - Hplus Hminus.
    destruct c as [[] [] [] [] [] [] [] []]; try reflexivity;
      vm_compute in Hplus, Hminus; discriminate. }
  rewrite Hss, Hp.
  assert (Hnu : match c :: s with
                | "_"%char :: _ => true
                | _ => false
                end = false).
  { clear - Hus. destruct c as [[] [] [] [] [] [] [] []]; try reflexivity.
    vm_compute in Hus. discriminate. }
  rewrite (scan_digits_digits base (c :: s) Hs Hb 0 0%nat).
  cbn [length Nat.add] in *. rewrite Hlimit. cbn [lstrip].
  clear - Hnu. destruct c as [[] [] [] [] [] [] [] []]; try reflexivity.
  discriminate Hnu.
Qed.

End Runtime.

(** ** [parse_number] *)

Lemma parse_number_unsigned_nonneg (tok : bytes) (v : Z) :
  has_sign tok = false -> parse_number tok = inr v -> 0 <= v.
Proof.
  intros Hs H. unfold parse_number in H. fold (has_sign tok) in H. rewrite Hs in H.
  unfold int_of_bytes in H.
  destruct (strip_sign (lstrip tok)) as [neg s1] eqn:Hss.
  assert (neg = false) as ->.
  { destruct neg; [|reflexivity].
    apply strip_sign_neg in Hss. apply lstrip_contains in Hss.
    unfold has_sign in Hs. rewrite Hss, orb_true_r in Hs. discriminate. }
  assert (Hscan : forall s2 v' n rest,
             scan_digits 16 s2 false 0 0 = Some (v', n, rest) -> 0 <= v').
  { intros s2 v' n rest Hsc.
    eapply (scan_digits_nonneg 16 s2); [lia| |exact Hsc]. lia. }
  destruct (strip_prefix 16 s1) as [|a r].
  - destruct (scan_digits 16 [] false 0 0) as [[[v' [|n']] rest]|] eqn:Hsc;
      try discriminate H.
    destruct (too_many_digits 16 (S n')); [discriminate H|].
    destruct (lstrip rest); [|discriminate H].
    injection H as <-. eapply Hscan; eauto.
  - destruct (scan_digits 16 (a :: r) false 0 0) as [[[v' [|n']] rest]|] eqn:Hsc;
      destruct a as [[] [] [] [] [] [] [] []]; try discriminate H;
      (destruct (too_many_digits 16 (S n')); [discriminate H|]);
      (destruct (lstrip rest); [|discriminate H]);
      injection H as <-; eapply Hscan; eauto.
Qed.

Lemma parse_number_hex_digits (c : ascii) (digits : bytes) :
  forallb (is_digit 16) (c :: digits) = true ->
  parse_number (c :: digits) = inr (value 16 (c :: digits)).
Proof.
  intros H. unfold parse_number. fold (has_sign (c :: digits)).
  rewrite (digits_no_sign _ H).
  apply int_of_bytes_digits;
    [exact H|lia|apply strip_prefix_digits; exact H|reflexivity].
Qed.

(** [int] in base 10 on a sign followed by decimal digits. *)
Lemma int_of_bytes_10_signed (neg : bool) (c : ascii) (digits : bytes) :
  forallb (is_digit 10) (c :: digits) = true ->
  int_of_bytes 10 ((if neg then "-"%char else "+"%char) :: c :: digits)
  = if max_str_digits <? Z.of_nat (length (c :: digits)) then inl ValueError
    else inr (if neg then - value 10 (c :: digits) else value 10 (c :: digits)).
Proof.
  intros H.
  assert (Hc : is_digit 16 c = true).
  { cbn [forallb] in H. apply andb_true_iff in H. destruct H as (Hc & _).
    apply is_digit_10_16. exact Hc. }
  destruct (digit_byte c Hc) as (_ & Hus & _).
  unfold int_of_bytes.
  assert (Hstrip : strip_sign (lstrip ((if neg then "-"%char else "+"%char) :: c :: digits))
                   = (neg, c :: digits)) by (destruct neg; reflexivity).
  rewrite Hstrip, strip_prefix_10.
  rewrite (scan_digits_digits 10 (c :: digits) H ltac:(lia) 0 0%nat).
  cbn [length Nat.add]. unfold too_many_digits.
  change (digit_limit_applies 10) with true. cbn [andb].
  unfold value.
  destruct (max_str_digits <? Z.of_nat (S (length digits)));
    clear - Hus; destruct c as [[] [] [] [] [] [] [] []]; try reflexivity;
    vm_compute in Hus; discriminate Hus.
Qed.

Lemma parse_number_signed (neg : bool) (c : ascii) (digits : bytes) :
  parse_number ((if neg then "-"%char else "+"%char) :: c :: digits)
  = int_of_bytes 10 ((if neg then "-"%char else "+"%char) :: c :: digits).
Proof.
  unfold parse_number. destruct neg.
  - change (contains "-" ("-"%char :: c :: digits)) with true.
    rewrite orb_true_r. reflexivity.
  - change (contains "+" ("+"%char :: c :: digits)) with true. reflexivity.
Qed.

Lemma parse_number_signed_decimal (c : ascii) (digits : bytes) :
  forallb (is_digit 10) (c :: digits) = true ->
  Z.of_nat (length (c :: digits)) <= max_str_digits ->
  parse_number ("+"%char :: c :: digits) = inr (value 10 (c :: digits))
  /\ parse_number ("-"%char :: c :: digits) = inr (- value 10 (c :: digits)).
Proof.
  intros H Hlen. apply Z.ltb_ge in Hlen.
  pose proof (int_of_bytes_10_signed false c digits H) as Hp.
  pose proof (int_of_bytes_10_signed true c digits H) as Hm.
  rewrite Hlen in Hp, Hm.
  split; [rewrite (parse_number_signed false)|rewrite (parse_number_signed true)];
    assumption.
Qed.

Lemma parse_number_signed_too_long (c : ascii) (digits : bytes) :
  forallb (is_digit 10) (c :: digits) = true ->
  max_str_digits < Z.of_nat (length (c :: digits)) ->
  parse_number ("+"%char :: c :: digits) = inl ValueError
  /\ parse_number ("-"%char :: c :: digits) = inl ValueError.
Proof.
  intros H Hlen. apply Z.ltb_lt in Hlen.
  pose proof (int_of_bytes_10_signed false c digits H) as Hp.
  pose proof (int_of_bytes_10_signed true c digits H) as Hm.
  rewrite Hlen in Hp, Hm.
  split; [rewrite (parse_number_signed false)|rewrite (parse_number_signed true)];
    assumption.
Qed.

(** C7, as amended.  [parse_number] inspects the token for a [+] or [-] byte
    anywhere in it: if there is one the token is parsed by [int] in base 10
    (so a sign followed by decimal digits gives that signed number, or
    [ValueError] when there are more than 4300 digits), otherwise in base 16
    (so a string of hexadecimal digits gives its value, and no result is
    negative).  In particular [parse_number(b"+42") == 42] and
    [parse_number(b"2A") == 42]. *)
Theorem parse_number_spec :
  (forall tok,
      parse_number tok
      = if has_sign tok then int_of_bytes 10 tok else int_of_bytes 16 tok)
  /\ (forall c digits,
         forallb (is_digit 10) (c :: digits) = true ->
         Z.of_nat (length (c :: digits)) <= max_str_digits ->
         parse_number ("+"%char :: c :: digits) = inr (value 10 (c :: digits))
         /\ parse_number ("-"%char :: c :: digits) = inr (- value 10 (c :: digits)))
  /\ (forall c digits,
         forallb (is_digit 10) (c :: digits) = true ->
         max_str_digits < Z.of_nat (length (c :: digits)) ->
         parse_number ("+"%char :: c :: digits) = inl ValueError
         /\ parse_number ("-"%char :: c :: digits) = inl ValueError)
  /\ (forall c digits,
         forallb (is_digit 16) (c :: digits) = true ->
         parse_number (c :: digits) = inr (value 16 (c :: digits)))
  /\ (forall tok v, has_sign tok = false -> parse_number tok = inr v -> 0 <= v)
  /\ parse_number (b "+42") = inr 42
  /\ parse_number (b "2A") = inr 42.
Proof.
  split; [reflexivity|].
  split; [exact parse_number_signed_decimal|].
  split; [exact parse_number_signed_too_long|].
  split; [exact parse_number_hex_digits|].
  split; [exact parse_number_unsigned_nonneg|].
  split; reflexivity.
Qed.

Lemma parse_number_spec_witness :
  parse_number (b "-1250") = inr (-1250)
  /\ parse_number (b "1F4") = inr 500
  /\ 0 <= 500.
Proof.
  destruct parse_number_spec as (_ & Hdec & _ & Hhex & Hpos & _).
  split; [|split].
  - refine (proj2 (Hdec "1"%char (b "250") eq_refl _)). vm_compute. discriminate.
  - exact (Hhex "1"%char (b "F4") eq_refl).
  - exact (Hpos (b "1F4") 500 eq_refl eq_refl).
Defined.

(** C7, counterexample.  The token 09 2B 31 30 (a tab, then [+10]) has no
    leading sign byte, yet [parse_number] reads it in base 10 and returns 10;
    read in base 16 it would be 16. *)
Lemma parse_number_sign_not_leading :
  has_leading_sign (TAB :: b "+10") = false
  /\ parse_number (TAB :: b "+10") = inr 10
  /\ int_of_bytes 16 (TAB :: b "+10") = inr 16.
Proof. repeat split. Qed.

(** ** [decode_datagram] *)

Section Decoder.

Lemma getitem_inr {A : Type} (l : list A) (i : nat) (x : A) :
  getitem l i = inr x <-> nth_error l i = Some x.
Proof.
  unfold getitem. destruct (nth_error l i); cbn; split; intros H;
    inversion H; reflexivity.
Qed.

Lemma text_at_bind (items : list bytes) (i : nat) (v : string) :
  (t <- getitem items i ;; decode_ascii t) = inr v <-> text_at items i v.
Proof.
  unfold text_at. split.
  - intros H. apply bind_inr in H. destruct H as (t & Ht & H).
    exists t. split; [apply getitem_inr; exact Ht|exact H].
  - intros (t & Ht & H). apply getitem_inr in Ht. rewrite Ht. exact H.
Qed.

Lemma number_at_bind (items : list bytes) (i : nat) (v : Z) :
  (t <- getitem items i ;; parse_number t) = inr v <-> number_at items i v.
Proof.
  unfold number_at. split.
  - intros H. apply bind_inr in H. destruct H as (t & Ht & H).
    exists t. split; [apply getitem_inr; exact Ht|exact H].
  - intros (t & Ht & H). apply getitem_inr in Ht. rewrite Ht. exact H.
Qed.

Lemma comprehension_of_Forall2 {A B : Type} (f : A -> result B) (l : list A) (ys : list B) :
  Forall2 (fun x y => f x = inr y) l ys -> comprehension f l = inr ys.
Proof.
  induction 1 as [|x y l ys Hxy _ IH]; cbn.
  - reflexivity.
  - rewrite Hxy. cbn. rewrite IH. reflexivity.
Qed.

(** A datagram decodes without an exception exactly when its token grid
    populates a record; the result is then the gate applied to that record. *)
Lemma decode_datagram_inv (datagram : bytes) (r : option Header) :
  decode_datagram datagram = inr r ->
  exists h, populated (split " " datagram) h /\ r = gate h.
Proof.
  unfold decode_datagram. intros H.
  repeat (apply bind_inr in H;
          let x := fresh "x" in
          let Hx := fresh "Hx" in
          destruct H as (x & Hx & H)).
  repeat match goal with
         | Hx : (i <- getitem _ _ ;; decode_ascii i) = inr _ |- _ =>
             apply text_at_bind in Hx
         | Hx : (i <- getitem _ _ ;; parse_number i) = inr _ |- _ =>
             apply number_at_bind in Hx
         | Hx : comprehension _ _ = inr _ |- _ =>
             apply comprehension_Forall2 in Hx
         end.
  exists (mkHeader x x0 x1 x2 x3 x4 x5 x6 x7 x8 x9 x10 x11).
  split.
  - unfold populated. cbn [TypeOfCommand Command VersionNumber DeviceNumber
      SerialNumber DeviceStatus1 DeviceStatus2 TelegramCounter TimeSinceStartup
      TimeOfTransmission AngularStepWidth NumberOfData Data].
    repeat split; assumption.
  - unfold gate. cbn [TypeOfCommand Command DeviceStatus1 DeviceStatus2].
    destruct (rejected x x0 x4 x5); inversion H; reflexivity.
Qed.

Lemma decode_datagram_populated (datagram : bytes) (h : Header) :
  populated (split " " datagram) h -> decode_datagram datagram = inr (gate h).
Proof.
  intros (H0 & H1 & H2 & H3 & H4 & H5 & H6 & H7 & H9 & H10 & H24 & H25 & HD).
  apply text_at_bind in H0, H1, H4.
  apply number_at_bind in H2, H3, H5, H6, H7, H9, H10, H24, H25.
  apply comprehension_of_Forall2 in HD.
  unfold decode_datagram.
  rewrite H0, H1, H2, H3, H4, H5, H6, H7, H9, H10, H24, H25.
  cbn [bind Monad_result Monad_either]. rewrite HD.
  cbn [bind Monad_result Monad_either].
  unfold gate. destruct h; cbn.
  destruct (rejected _ _ _ _); reflexivity.
Qed.

Lemma rejected_iff (typeOfCommand command : string) (status1 status2 : Z) :
  rejected typeOfCommand command status1 status2 = true
  <-> typeOfCommand <> "sSN"%string \/ command <> "LMDscandata"%string
      \/ status1 <> 0 \/ status2 <> 0.
Proof.
  unfold rejected. rewrite !orb_true_iff, !negb_true_iff.
  rewrite !String.eqb_neq, !Z.eqb_neq. tauto.
Qed.

Lemma nth_error_length_lt {A : Type} (l : list A) (i : nat) (x : A) :
  nth_error l i = Some x -> (i < length l)%nat.
Proof. intros H. apply nth_error_Some. congruence. Qed.

End Decoder.

Section DecoderClaims.

Lemma slice_bound_range (len i : Z) : 0 <= len -> 0 <= slice_bound len i <= len.
Proof. unfold slice_bound. destruct (i <? 0) eqn:E; [apply Z.ltb_lt in E|apply Z.ltb_ge in E]; lia. Qed.

Lemma slice_length {A : Type} (l : list A) (start stop : Z) :
  Z.of_nat (length (slice l start stop))
  = Z.max 0 (slice_bound (Z.of_nat (length l)) stop
             - slice_bound (Z.of_nat (length l)) start).
Proof.
  unfold slice.
  pose proof (slice_bound_range (Z.of_nat (length l)) start (Nat2Z.is_nonneg _)).
  pose proof (slice_bound_range (Z.of_nat (length l)) stop (Nat2Z.is_nonneg _)).
  rewrite length_firstn, length_skipn. lia.
Qed.

Lemma gate_Some (h h' : Header) : gate h' = Some h -> h' = h.
Proof. unfold gate. destruct (rejected _ _ _ _); congruence. Qed.

Lemma decode_datagram_Some (datagram : bytes) (h : Header) :
  decode_datagram datagram = inr (Some h) -> populated (split " " datagram) h.
Proof.
  intros H. apply decode_datagram_inv in H. destruct H as (h' & Hp & Hg).
  symmetry in Hg. apply gate_Some in Hg. subst h'. exact Hp.
Qed.

Lemma token_ok_number (items : list bytes) (i : nat) :
  token_ok parses items i = true -> exists v, number_at items i v.
Proof.
  unfold token_ok, parses, number_at.
  destruct (nth_error items i) as [t|]; [|discriminate].
  destruct (parse_number t) as [e|v] eqn:E; [discriminate|].
  intros _. exists v, t. auto.
Qed.

Lemma token_ok_text (items : list bytes) (i : nat) :
  token_ok (forallb is_ascii) items i = true -> exists v, text_at items i v.
Proof.
  unfold token_ok, text_at.
  destruct (nth_error items i) as [t|]; [|discriminate].
  intros H. exists (string_of_list_ascii t), t. split; [reflexivity|].
  unfold decode_ascii. rewrite H. reflexivity.
Qed.

Lemma sample_tokens_number (items : list bytes) (n : Z) :
  number_at items 25 n -> sample_tokens items = slice items 26 (26 + n).
Proof.
  intros (t & Ht & Hn). unfold sample_tokens. rewrite Ht, Hn. reflexivity.
Qed.

End DecoderClaims.

(** C2, as amended.  A record returned by [decode_datagram] has as many samples
    as the slice [items[26:26+N]] selects: the declared count [N] when
    [0 <= N] and at most the tokens after index 25 are declared, and exactly
    the tokens that are there (fewer than [N], no exception) when [N] exceeds
    them. *)
Theorem decode_datagram_sample_count (datagram : bytes) (h : Header) :
  decode_datagram datagram = inr (Some h) ->
  let available := Z.of_nat (length (split " " datagram)) - 26 in
  let count := Z.of_nat (length (Data h)) in
  0 <= available
  /\ (0 <= NumberOfData h <= available -> count = NumberOfData h)
  /\ (available < NumberOfData h -> count = available).
Proof.
  intros H. apply decode_datagram_Some in H.
  destruct H as (_ & _ & _ & _ & _ & _ & _ & _ & _ & _ & _ & H25 & HD).
  destruct H25 as (t & Ht & _). apply nth_error_length_lt in Ht.
  apply Forall2_length in HD.
  cbv zeta. rewrite <- HD, slice_length. unfold slice_bound.
  change (26 <? 0) with false. cbv iota.
  destruct (26 + NumberOfData h <? 0) eqn:E;
    [apply Z.ltb_lt in E|apply Z.ltb_ge in E]; lia.
Qed.

Lemma decode_datagram_sample_count_witness :
  exists h, decode_datagram telegram3 = inr (Some h)
            /\ Z.of_nat (length (Data h)) = NumberOfData h.
Proof.
  eexists. split; [vm_compute; reflexivity|].
  refine (proj1 (proj2 (decode_datagram_sample_count telegram3 _ _)) _).
  - vm_compute. reflexivity.
  - vm_compute. split; discriminate.
Defined.

(** C2, counterexample.  A telegram that declares five samples and carries
    three decodes to a record with three samples, without an exception. *)
Lemma decode_datagram_short_data :
  exists h, decode_datagram telegram_5_of_3 = inr (Some h)
            /\ NumberOfData h = 5 /\ length (Data h) = 3%nat.
Proof. eexists. split; [vm_compute; reflexivity|]. split; reflexivity. Qed.

(** C6, as amended.  In a returned record each sample is
    [parse_number(token) / 1000] for its token, the quotient being the
    binary64 value nearest to the exact one (not a floor division); for a
    token with no sign byte the number is the token read in base 16 and is
    not negative, for a token with a sign byte it is the token read as a
    signed base-10 number. *)
Theorem decode_datagram_samples (datagram : bytes) (h : Header) :
  decode_datagram datagram = inr (Some h) ->
  Forall2 (fun tok v =>
             exists n, parse_number tok = inr n
                       /\ truediv n 1000 = inr v
                       /\ (has_sign tok = false -> int_of_bytes 16 tok = inr n /\ 0 <= n)
                       /\ (has_sign tok = true -> int_of_bytes 10 tok = inr n))
          (slice (split " " datagram) 26 (26 + NumberOfData h)) (Data h).
Proof.
  intros H. apply decode_datagram_Some in H.
  destruct H as (_ & _ & _ & _ & _ & _ & _ & _ & _ & _ & _ & _ & HD).
  eapply Forall2_impl; [|exact HD].
  intros tok v Hs. unfold sample in Hs. apply bind_inr in Hs.
  destruct Hs as (n & Hn & Hv). exists n.
  split; [exact Hn|]. split; [exact Hv|]. split.
  - intros Hsign. split.
    + unfold parse_number in Hn. fold (has_sign tok) in Hn.
      rewrite Hsign in Hn. exact Hn.
    + eapply parse_number_unsigned_nonneg; eauto.
  - intros Hsign. unfold parse_number in Hn. fold (has_sign tok) in Hn.
    rewrite Hsign in Hn. exact Hn.
Qed.

Lemma decode_datagram_samples_witness :
  exists h,
    decode_datagram telegram3 = inr (Some h)
    /\ Forall2 (fun tok v =>
                  exists n, parse_number tok = inr n
                            /\ truediv n 1000 = inr v
                            /\ (has_sign tok = false -> int_of_bytes 16 tok = inr n /\ 0 <= n)
                            /\ (has_sign tok = true -> int_of_bytes 10 tok = inr n))
               [b "1A"; b "2B"; b "3C"] (Data h).
Proof.
  eexists. split; [vm_compute; reflexivity|].
  exact (decode_datagram_samples telegram3 _ eq_refl).
Defined.

(** C6, counterexample.  The sample token [+10] of a returned record gives the
    sample 10/1000, while the token read in base 16 is 16. *)
Lemma decode_datagram_signed_sample :
  exists h x,
    decode_datagram telegram_plus10 = inr (Some h)
    /\ Data h = [x]
    /\ truediv 10 1000 = inr x
    /\ int_of_bytes 16 (b "+10") = inr 16
    /\ truediv 16 1000 <> inr x.
Proof.
  eexists. eexists. split; [vm_compute; reflexivity|].
  split; [reflexivity|]. split; [vm_compute; reflexivity|].
  split; [reflexivity|]. vm_compute. discriminate.
Qed.

(** C5, as amended.  For a datagram whose token grid is long enough, whose
    numeric tokens all parse, whose three text tokens are ASCII and whose
    sample quotients are finite floats, [decode_datagram] raises nothing; it
    returns [None] if and only if the command type is not ["sSN"], or the
    command is not ["LMDscandata"], or one of the two device status fields is
    not zero; otherwise it returns the record populated from the grid. *)
Theorem decode_datagram_gate (datagram : bytes) :
  grid_long_enough (split " " datagram) = true ->
  numeric_tokens_parse (split " " datagram) = true ->
  text_tokens_ascii (split " " datagram) = true ->
  samples_fit (split " " datagram) = true ->
  exists h,
    populated (split " " datagram) h
    /\ (decode_datagram datagram = inr None
        <-> (TypeOfCommand h <> "sSN"%string \/ Command h <> "LMDscandata"%string
             \/ DeviceStatus1 h <> 0 \/ DeviceStatus2 h <> 0))
    /\ (decode_datagram datagram <> inr None ->
        decode_datagram datagram = inr (Some h)).
Proof.
  set (items := split " " datagram).
  intros _ Hnum Htext Hfit.
  unfold numeric_tokens_parse in Hnum. apply andb_true_iff in Hnum.
  destruct Hnum as (Hnum & Hsamples).
  cbn [forallb numeric_indices] in Hnum.
  repeat rewrite andb_true_iff in Hnum.
  destruct Hnum as (N2 & N3 & N5 & N6 & N7 & N9 & N10 & N24 & N25 & _).
  unfold text_tokens_ascii in Htext. cbn [forallb text_indices] in Htext.
  repeat rewrite andb_true_iff in Htext.
  destruct Htext as (T0 & T1 & T4 & _).
  apply token_ok_text in T0, T1, T4.
  apply token_ok_number in N2, N3, N5, N6, N7, N9, N10, N24, N25.
  destruct T0 as (typeOfCommand & T0), T1 as (command & T1),
    T4 as (serialNumber & T4).
  destruct N2 as (versionNumber & N2), N3 as (deviceNumber & N3),
    N5 as (status1 & N5), N6 as (status2 & N6), N7 as (telegramCounter & N7),
    N9 as (timeSinceStartup & N9), N10 as (timeOfTransmission & N10),
    N24 as (angularStepWidth & N24), N25 as (numberOfData & N25).
  unfold samples_fit in Hfit.
  rewrite (sample_tokens_number items numberOfData N25) in Hsamples, Hfit.
  assert (Hall : exists data,
             comprehension sample (slice items 26 (26 + numberOfData)) = inr data).
  { apply comprehension_all. rewrite forallb_forall in Hsamples, Hfit.
    apply Forall_forall. intros t Ht.
    specialize (Hsamples t Ht). specialize (Hfit t Ht).
    unfold parses in Hsamples. unfold sample.
    destruct (parse_number t) as [e|n]; [discriminate|].
    cbn [bind Monad_result Monad_either].
    destruct (truediv n 1000) as [e|v]; [discriminate|]. exists v. reflexivity. }
  destruct Hall as (data & Hdata). apply comprehension_Forall2 in Hdata.
  set (h := mkHeader typeOfCommand command versionNumber deviceNumber
                     serialNumber status1 status2 telegramCounter
                     timeSinceStartup timeOfTransmission angularStepWidth
                     numberOfData data).
  assert (Hpop : populated items h).
  { unfold populated, h. cbn [TypeOfCommand Command VersionNumber DeviceNumber
      SerialNumber DeviceStatus1 DeviceStatus2 TelegramCounter TimeSinceStartup
      TimeOfTransmission AngularStepWidth NumberOfData Data].
    repeat split; assumption. }
  exists h. split; [exact Hpop|].
  rewrite (decode_datagram_populated datagram h Hpop). unfold gate.
  rewrite <- rejected_iff.
  destruct (rejected (TypeOfCommand h) (Command h) (DeviceStatus1 h) (DeviceStatus2 h)).
  - split; [split; reflexivity|]. intros H. exfalso. apply H. reflexivity.
  - split; [split; discriminate|]. reflexivity.
Qed.

Lemma decode_datagram_gate_witness :
  exists h,
    populated (split " " telegram3) h
    /\ (decode_datagram telegram3 = inr None
        <-> (TypeOfCommand h <> "sSN"%string \/ Command h <> "LMDscandata"%string
             \/ DeviceStatus1 h <> 0 \/ DeviceStatus2 h <> 0))
    /\ (decode_datagram telegram3 <> inr None ->
        decode_datagram telegram3 = inr (Some h)).
Proof.
  apply (decode_datagram_gate telegram3); vm_compute; reflexivity.
Defined.

(** C5, counterexample.  The grid of this telegram is long enough, its numeric
    tokens all parse and it passes the gate (["sSN"], ["LMDscandata"], both
    status fields zero), but its serial number is the byte 0xFF:
    [decode_datagram] returns neither [None] nor a record, it raises
    [UnicodeDecodeError]. *)
Lemma decode_datagram_non_ascii_serial :
  grid_long_enough (split " " telegram_serial_ff) = true
  /\ numeric_tokens_parse (split " " telegram_serial_ff) = true
  /\ nth_error (split " " telegram_serial_ff) 0 = Some (b "sSN")
  /\ nth_error (split " " telegram_serial_ff) 1 = Some (b "LMDscandata")
  /\ number_at (split " " telegram_serial_ff) 5 0
  /\ number_at (split " " telegram_serial_ff) 6 0
  /\ decode_datagram telegram_serial_ff = inl UnicodeDecodeError.
Proof.
  split; [vm_compute; reflexivity|].
  split; [vm_compute; reflexivity|].
  split; [vm_compute; reflexivity|].
  split; [vm_compute; reflexivity|].
  split; [exists (b "0"); split; vm_compute; reflexivity|].
  split; [exists (b "0"); split; vm_compute; reflexivity|].
  vm_compute. reflexivity.
Qed.

(** ** [run] *)

Section Loop.

Lemma populated_well_formed (items : list bytes) (h : Header) :
  populated items h ->
  grid_long_enough items = true /\ numeric_tokens_parse items = true.
Proof.
  intros (_ & _ & N2 & N3 & _ & N5 & N6 & N7 & N9 & N10 & N24 & N25 & HD).
  split.
  - destruct N25 as (t & Ht & _). apply nth_error_length_lt in Ht.
    unfold grid_long_enough. apply Nat.leb_le. lia.
  - unfold numeric_tokens_parse. apply andb_true_iff. split.
    + assert (Hok : forall i v, number_at items i v -> token_ok parses items i = true).
      { intros i v (t & Ht & Hv). unfold token_ok, parses. rewrite Ht, Hv. reflexivity. }
      cbn [forallb numeric_indices].
      rewrite (Hok _ _ N2), (Hok _ _ N3), (Hok _ _ N5), (Hok _ _ N6), (Hok _ _ N7),
        (Hok _ _ N9), (Hok _ _ N10), (Hok _ _ N24), (Hok _ _ N25).
      reflexivity.
    + rewrite (sample_tokens_number items _ N25).
      apply forallb_forall. intros t Ht.
      induction HD as [|t0 v l l' Hs _ IH]; [destruct Ht|].
      destruct Ht as [->|Ht]; [|exact (IH Ht)].
      unfold sample in Hs. apply bind_inr in Hs. destruct Hs as (n & Hn & _).
      unfold parses. rewrite Hn. reflexivity.
Qed.

Lemma malformed_raises (datagram : bytes) :
  malformed (split " " datagram) -> exists e, decode_datagram datagram = inl e.
Proof.
  intros Hm. destruct (decode_datagram datagram) as [e|r] eqn:E.
  - exists e. reflexivity.
  - exfalso. apply decode_datagram_inv in E. destruct E as (h & Hp & _).
    apply populated_well_formed in Hp. destruct Hp as (Hg & Hn).
    destruct Hm as [Hm|Hm]; congruence.
Qed.

Lemma run_raises (self : lidar) (datagram : bytes) (rest : list bytes) (e : exn) :
  stop self = false -> run_body self datagram = inl e ->
  run self (datagram :: rest) = (self, Raised e, rest).
Proof. intros Hs Hp. cbn [run]. rewrite Hs, Hp. reflexivity. Qed.

(** Every telegram that passes the gate makes the loop body raise. *)
Lemma run_body_valid_raises (self : lidar) (datagram : bytes) (h : Header) :
  decode_datagram datagram = inr (Some h) -> run_body self datagram = inl TypeError.
Proof. intros H. unfold run_body. rewrite H. reflexivity. Qed.

(** The slot is written nowhere: whatever the datagrams, [run] leaves
    [self.ds] as it found it. *)
Lemma run_ds_unchanged (datagrams : list bytes) :
  forall self, ds (fst (fst (run self datagrams))) = ds self.
Proof.
  induction datagrams as [|d rest IH]; intros self; cbn [run].
  - destruct (stop self); reflexivity.
  - destruct (stop self); [reflexivity|].
    destruct (run_body self d) as [e|self'] eqn:E; [reflexivity|].
    rewrite IH. unfold run_body in E.
    destruct (decode_datagram d) as [e|[h|]]; cbn in E; try discriminate.
    injection E as <-. reflexivity.
Qed.

End Loop.

(** C4, as amended.  While the loop is running, a malformed telegram (token
    grid shorter than the required indices, or a numeric token that fails to
    parse) makes [decode_datagram] raise; [run] does not catch the exception:
    the loop ends with it, the object is left as it was and the datagrams that
    follow are never taken from the generator. *)
Theorem run_malformed_raises (self : lidar) (datagram : bytes) (rest : list bytes) :
  stop self = false ->
  malformed (split " " datagram) ->
  exists e, decode_datagram datagram = inl e
            /\ run self (datagram :: rest) = (self, Raised e, rest).
Proof.
  intros Hs Hm. destruct (malformed_raises datagram Hm) as (e & He).
  exists e. split; [exact He|].
  apply run_raises; [exact Hs|]. unfold run_body. rewrite He. reflexivity.
Qed.

Lemma run_malformed_raises_witness :
  exists e, decode_datagram one_token = inl e
            /\ run init [one_token; telegram3] = (init, Raised e, [telegram3]).
Proof.
  apply (run_malformed_raises init one_token [telegram3]).
  - reflexivity.
  - left. vm_compute. reflexivity.
Defined.

(** C4, counterexample.  A telegram of one token is followed by a well-formed
    one; the loop ends on the first with [IndexError] and the second is never
    decoded. *)
Lemma run_stops_at_malformed :
  grid_long_enough (split " " one_token) = false
  /\ run init [one_token; telegram3] = (init, Raised IndexError, [telegram3]).
Proof. split; vm_compute; reflexivity. Qed.

(** C1, evaluation at the failing input.  [telegram3] decodes to a valid
    record, and on it [run] ends with [TypeError] --- the call of
    [clean_datagram_by_angle] is given no array --- leaving [self.ds] at
    [None]: no filtered scan is published. *)
Theorem run_valid_telegram_raises_TypeError :
  (exists h, decode_datagram telegram3 = inr (Some h))
  /\ run init [telegram3] = (init, Raised TypeError, [])
  /\ get (fst (fst (run init [telegram3]))) = None.
Proof.
  split; [eexists; vm_compute; reflexivity|].
  split; vm_compute; reflexivity.
Qed.

(** ** The filters *)

Section Filters.

Lemma clean_datagram_by_distance_map (self : lidar) (a : ndarray) :
  clean_datagram_by_distance self a
  = map (keep_or_sentinel (min_distance self) (max_distance self)) a.
Proof.
  unfold clean_datagram_by_distance, np_where, np_gt, np_lt, keep_or_sentinel.
  induction a as [|x a IH]; [reflexivity|].
  cbn [map combine fst snd]. rewrite IH. f_equal.
  destruct (flt (min_distance self) x); cbn [andb].
  - reflexivity.
  - destruct (flt sentinel (max_distance self)); reflexivity.
Qed.

Lemma deref_alloc_old (h : Store.heap) (a : ndarray) (r : Store.ref) (x : ndarray) :
  Store.deref h r = Some x -> Store.deref (fst (Store.alloc h a)) r = Some x.
Proof.
  unfold Store.deref, Store.alloc. cbn [fst]. intros H.
  rewrite nth_error_app1; [exact H|]. apply nth_error_Some. congruence.
Qed.

Lemma deref_alloc_new (h : Store.heap) (a : ndarray) :
  Store.deref (fst (Store.alloc h a)) (snd (Store.alloc h a)) = Some a.
Proof.
  unfold Store.deref, Store.alloc. cbn [fst snd].
  rewrite nth_error_app2, Nat.sub_diag; [reflexivity|lia].
Qed.

Lemma slice_in_range {A : Type} (l : list A) (start stop : Z) :
  0 <= start <= stop -> stop <= Z.of_nat (length l) ->
  slice l start stop = firstn (Z.to_nat (stop - start)) (skipn (Z.to_nat start) l)
  /\ length (slice l start stop) = Z.to_nat (stop - start).
Proof.
  intros H1 H2.
  assert (E : slice l start stop
              = firstn (Z.to_nat (stop - start)) (skipn (Z.to_nat start) l)).
  { unfold slice, slice_bound.
    destruct (start <? 0) eqn:E1; [apply Z.ltb_lt in E1; lia|].
    destruct (stop <? 0) eqn:E2; [apply Z.ltb_lt in E2; lia|].
    rewrite !Z.min_l by lia. reflexivity. }
  split; [exact E|].
  rewrite E, length_firstn, length_skipn. lia.
Qed.

End Filters.

(** C8.  [clean_datagram_by_distance] returns an array of the same length in
    which each value strictly greater than [min_distance] and strictly less
    than [max_distance] is kept and every other value is replaced by -1; the
    result is a new array object and the input array, like every array that
    existed before the call, is unchanged; on [0.05, 0.5, 1.5, 5.0] with the
    bounds (0.1, 3.0) the result is [-1, 0.5, 1.5, -1]. *)
Theorem clean_datagram_by_distance_spec
    (self : lidar) (h : Store.heap) (r : Store.ref) (a : ndarray) :
  Store.deref h r = Some a ->
  clean_datagram_by_distance self a
  = map (keep_or_sentinel (min_distance self) (max_distance self)) a
  /\ length (clean_datagram_by_distance self a) = length a
  /\ (exists h' r',
         Store.clean_datagram_by_distance self h r = Some (h', r')
         /\ Store.deref h' r' = Some (clean_datagram_by_distance self a)
         /\ r' <> r
         /\ forall r0 a0, Store.deref h r0 = Some a0 -> Store.deref h' r0 = Some a0)
  /\ clean_datagram_by_distance init [lit 5 100; lit 1 2; lit 3 2; lit 5 1]
     = [float_of_int (-1); lit 1 2; lit 3 2; float_of_int (-1)]
  /\ min_distance init = lit 1 10
  /\ max_distance init = lit 3 1.
Proof.
  intros Hr. split; [apply clean_datagram_by_distance_map|].
  split; [rewrite clean_datagram_by_distance_map; apply length_map|].
  split; [|repeat split; vm_compute; reflexivity].
  unfold Store.clean_datagram_by_distance, Store.where_gt. rewrite Hr.
  set (a1 := np_where (np_gt a (min_distance self)) a sentinel).
  destruct (Store.alloc h a1) as [h1 r1] eqn:A1.
  assert (D1 : Store.deref h1 r1 = Some a1).
  { pose proof (deref_alloc_new h a1) as D. rewrite A1 in D. exact D. }
  unfold Store.where_lt. rewrite D1.
  set (a2 := np_where (np_lt a1 (max_distance self)) a1 sentinel).
  destruct (Store.alloc h1 a2) as [h2 r2] eqn:A2.
  exists h2, r2. split; [reflexivity|]. split; [|split].
  - pose proof (deref_alloc_new h1 a2) as D. rewrite A2 in D. exact D.
  - unfold Store.alloc in A1, A2. inversion A1; inversion A2; subst.
    rewrite length_app. cbn [length].
    assert (r < length h)%nat by (apply nth_error_Some; unfold Store.deref in Hr; congruence).
    lia.
  - intros r0 a0 H0.
    pose proof (deref_alloc_old h a1 r0 a0 H0) as O1. rewrite A1 in O1.
    pose proof (deref_alloc_old h1 a2 r0 a0 O1) as O2. rewrite A2 in O2.
    exact O2.
Qed.

Lemma clean_datagram_by_distance_spec_witness :
  exists h' r',
    Store.clean_datagram_by_distance init [[lit 5 100; lit 1 2; lit 3 2; lit 5 1]] 0%nat
    = Some (h', r')
    /\ Store.deref h' r' = Some [float_of_int (-1); lit 1 2; lit 3 2; float_of_int (-1)]
    /\ Store.deref h' 0%nat = Some [lit 5 100; lit 1 2; lit 3 2; lit 5 1].
Proof.
  destruct (clean_datagram_by_distance_spec init
              [[lit 5 100; lit 1 2; lit 3 2; lit 5 1]] 0%nat
              [lit 5 100; lit 1 2; lit 3 2; lit 5 1] eq_refl)
    as (_ & _ & (h' & r' & Hc & Hd & _ & Hold) & Hex & _).
  exists h', r'. split; [exact Hc|]. split.
  - rewrite Hd, Hex. reflexivity.
  - apply Hold. reflexivity.
Defined.

(** ** Rounding in binary64

    Bounds on what [binary_round_aux], the rounding step of every [float]
    operation, can return. *)

Section Rounding.

Lemma digits2_pos_bounds (p : positive) :
  2 ^ (Zpos (digits2_pos p) - 1) <= Zpos p < 2 ^ Zpos (digits2_pos p).
Proof.
  induction p as [p IH|p IH|]; cbn [digits2_pos].
  - rewrite Pos2Z.inj_succ.
    replace (Z.succ (Zpos (digits2_pos p)) - 1) with (Z.succ (Zpos (digits2_pos p) - 1)) by lia.
    rewrite !Z.pow_succ_r by lia. lia.
  - rewrite Pos2Z.inj_succ.
    replace (Z.succ (Zpos (digits2_pos p)) - 1) with (Z.succ (Zpos (digits2_pos p) - 1)) by lia.
    rewrite !Z.pow_succ_r by lia. lia.
  - cbn. lia.
Qed.

Lemma Zdigits2_le (m k : Z) : 0 <= m -> 0 <= k -> m < 2 ^ k -> Zdigits2 m <= k.
Proof.
  intros Hm Hk H. destruct m as [|p|p]; cbn [Zdigits2]; [lia| |lia].
  destruct (Z_le_gt_dec (Zpos (digits2_pos p)) k) as [L|G]; [exact L|exfalso].
  pose proof (digits2_pos_bounds p) as (B & _).
  assert (2 ^ k <= 2 ^ (Zpos (digits2_pos p) - 1)) by (apply Z.pow_le_mono_r; lia).
  lia.
Qed.

Lemma shr_1_m (mrs : shr_record) :
  0 <= shr_m mrs -> shr_m (shr_1 mrs) = shr_m mrs / 2.
Proof.
  destruct mrs as [m r s]. cbn [shr_m]. intros Hm.
  destruct m as [|[p|p|]|p]; cbn [shr_1 shr_m].
  - reflexivity.
  - apply Z.div_unique with 1; lia.
  - apply Z.div_unique with 0; lia.
  - reflexivity.
  - lia.
Qed.

Lemma iter_pos_shr_m (p : positive) :
  forall mrs, 0 <= shr_m mrs ->
    shr_m (iter_pos shr_1 p mrs) = shr_m mrs / 2 ^ Zpos p.
Proof.
  induction p as [p IH|p IH|]; intros mrs Hm; cbn [iter_pos].
  - assert (H1 : 0 <= shr_m (shr_1 mrs)) by (rewrite shr_1_m by lia; apply Z.div_pos; lia).
    assert (H2 : 0 <= shr_m (iter_pos shr_1 p (shr_1 mrs)))
      by (rewrite IH by lia; apply Z.div_pos; lia).
    rewrite IH, IH, shr_1_m by assumption.
    rewrite !Z.div_div by lia. f_equal.
    replace (Zpos p~1) with (1 + Zpos p + Zpos p) by lia.
    rewrite !Z.pow_add_r by lia. change (2 ^ 1) with 2. ring.
  - assert (H2 : 0 <= shr_m (iter_pos shr_1 p mrs))
      by (rewrite IH by lia; apply Z.div_pos; lia).
    rewrite IH, IH by assumption.
    rewrite !Z.div_div by lia. f_equal.
    replace (Zpos p~0) with (Zpos p + Zpos p) by lia.
    rewrite !Z.pow_add_r by lia. ring.
  - rewrite shr_1_m by assumption. reflexivity.
Qed.

Lemma shr_m_e (mrs : shr_record) (e n : Z) :
  0 <= shr_m mrs ->
  shr_m (fst (shr mrs e n)) = shr_m mrs / 2 ^ Z.max 0 n
  /\ snd (shr mrs e n) = e + Z.max 0 n.
Proof.
  intros Hm. destruct n as [|p|p]; cbn [shr fst snd].
  - rewrite Z.max_l by lia. cbn. rewrite Z.div_1_r. lia.
  - rewrite Z.max_r by lia. split; [apply iter_pos_shr_m; exact Hm|reflexivity].
  - rewrite Z.max_l by lia. cbn. rewrite Z.div_1_r. lia.
Qed.

Lemma shr_record_of_loc_m (m : Z) (l : location) : shr_m (shr_record_of_loc m l) = m.
Proof. destruct l as [|[]]; reflexivity. Qed.

Lemma round_nearest_even_bounds (m : Z) (l : location) :
  m <= round_nearest_even m l <= m + 1.
Proof.
  unfold round_nearest_even. destruct l as [|[]]; try lia.
  destruct (Z.even m); lia.
Qed.

End Rounding.

Section Bound.

Lemma fexp_eq (k : Z) : fexp prec emax k = Z.max (k - 53) (-1074).
Proof. reflexivity. Qed.

Lemma div_succ_le (a b : Z) : 0 < b -> (a + 1) / b <= a / b + 1.
Proof.
  intros Hb. rewrite <- (Z.div_add a 1 b) by lia.
  apply Z.div_le_mono; lia.
Qed.

Lemma binary_round_aux_bound (M E K : Z) (l : location) :
  0 <= M -> E <= K -> -1074 <= K <= 1000 -> E <= 971 -> M < 2 ^ (K - E) ->
  match binary_round_aux prec emax false M E l with
  | S754_zero s => s = false
  | S754_finite s mr er =>
      s = false /\ E <= er <= Z.max E (Z.max (K - 52) (-1074))
      /\ Zpos mr <= M / 2 ^ (er - E) + 1
  | _ => False
  end.
Proof.
  intros HM HEK HK HE HMK.
  unfold binary_round_aux, shr_fexp.
  set (n1 := fexp prec emax (Zdigits2 M + E) - E).
  pose proof (shr_m_e (shr_record_of_loc M l) E n1) as S1.
  rewrite shr_record_of_loc_m in S1. specialize (S1 HM).
  destruct (shr (shr_record_of_loc M l) E n1) as [mrs1 e1].
  cbn [fst snd] in S1. destruct S1 as (Hm1 & He1).
  pose proof (round_nearest_even_bounds (shr_m mrs1) (loc_of_shr_record mrs1)) as Hr.
  set (m2 := round_nearest_even (shr_m mrs1) (loc_of_shr_record mrs1)) in *.
  assert (Hm1pos : 0 <= shr_m mrs1) by (rewrite Hm1; apply Z.div_pos; lia).
  set (n2 := fexp prec emax (Zdigits2 m2 + e1) - e1).
  pose proof (shr_m_e (shr_record_of_loc m2 loc_Exact) e1 n2) as S2.
  rewrite shr_record_of_loc_m in S2. specialize (S2 ltac:(lia)).
  destruct (shr (shr_record_of_loc m2 loc_Exact) e1 n2) as [mrs2 e2].
  cbn [fst snd] in S2. destruct S2 as (Hm2 & He2).
  (* exponents *)
  assert (D1 : Zdigits2 M <= K - E) by (apply Zdigits2_le; lia).
  assert (Hn1 : n1 <= Z.max (K - 53) (-1074) - E).
  { unfold n1. rewrite fexp_eq. lia. }
  assert (He1K : e1 <= K) by lia.
  assert (Hm1lt : shr_m mrs1 < 2 ^ (K - e1)).
  { rewrite Hm1. apply Z.div_lt_upper_bound; [lia|].
    rewrite <- Z.pow_add_r by lia.
    replace (Z.max 0 n1 + (K - e1)) with (K - E) by lia. exact HMK. }
  assert (D2 : Zdigits2 m2 <= K - e1 + 1).
  { apply Zdigits2_le; [lia|lia|].
    rewrite Z.pow_add_r by lia. change (2 ^ 1) with 2. lia. }
  assert (Hn2 : n2 <= Z.max (K - 52) (-1074) - e1).
  { unfold n2. rewrite fexp_eq. lia. }
  assert (Hm2le : shr_m mrs2 <= M / 2 ^ (e2 - E) + 1).
  { rewrite Hm2.
    replace (e2 - E) with (Z.max 0 n1 + Z.max 0 n2) by lia.
    rewrite Z.pow_add_r, <- Z.div_div by lia. rewrite <- Hm1.
    etransitivity; [|apply div_succ_le; lia].
    apply Z.div_le_mono; lia. }
  assert (Hm2pos : 0 <= shr_m mrs2) by (rewrite Hm2; apply Z.div_pos; lia).
  destruct (shr_m mrs2) as [|mr|mr]; [reflexivity| |lia].
  assert (Hle : (e2 <=? emax - prec) = true).
  { apply Z.leb_le. unfold emax, prec. lia. }
  rewrite Hle. repeat split; lia.
Qed.

End Bound.


Section Window.


(** A [float] that is zero or positive and at most 2^8. *)
Lemma half_bound (m : positive) (e : Z) :
  Zpos m < 2 ^ 53 -> -1074 <= e <= -44 ->
  match SFdiv prec emax (S754_finite false m e) (float_of_int 2) with
  | S754_zero s => s = false
  | S754_finite s mh eh => s = false /\ -1200 <= eh <= 7 /\ Zpos mh <= 2 ^ (8 - eh)
  | _ => False
  end.
Proof.
  intros Hm He.
  change (float_of_int 2) with (S754_finite false 4503599627370496 (-51)).
  unfold SFdiv, SFdiv_core_binary.
  change (Zdigits2 4503599627370496) with 53.
  set (e' := Z.min (fexp prec emax (Zdigits2 (Zpos m) + e - (53 + -51))) (e - -51)).
  set (s := e - -51 - e').
  set (m' := match s with
             | Z0 => Zpos m
             | Zpos _ => Z.shiftl (Zpos m) s
             | Zneg _ => 0
             end).
  assert (He' : -1074 <= e' <= e + 51).
  { unfold e'. rewrite fexp_eq. lia. }
  assert (Hs : 0 <= s) by (unfold s; lia).
  assert (Hm' : m' = Zpos m * 2 ^ s).
  { unfold m'. destruct s as [|p|p] eqn:Es.
    - rewrite Z.mul_1_r. reflexivity.
    - apply Z.shiftl_mul_pow2. lia.
    - lia. }
  assert (Hq : Z.div_eucl m' 4503599627370496
               = (m' / 4503599627370496, m' mod 4503599627370496)).
  { unfold Z.div, Z.modulo. destruct (Z.div_eucl m' 4503599627370496). reflexivity. }
  rewrite Hq. cbn [xorb].
  set (q := m' / 4503599627370496).
  assert (Hq0 : 0 <= q).
  { unfold q. apply Z.div_pos; [|lia]. rewrite Hm'. apply Z.mul_nonneg_nonneg; [lia|].
    apply Z.pow_nonneg. lia. }
  assert (Hqlt : q < 2 ^ (8 - e')).
  { unfold q. apply Z.div_lt_upper_bound; [lia|].
    change 4503599627370496 with (2 ^ 52). rewrite <- Z.pow_add_r by lia.
    rewrite Hm'.
    apply Z.lt_le_trans with (2 ^ 53 * 2 ^ s).
    - apply Z.mul_lt_mono_pos_r; [apply Z.pow_pos_nonneg; lia|exact Hm].
    - rewrite <- Z.pow_add_r by lia. apply Z.pow_le_mono_r; [lia|]. unfold s. lia. }
  pose proof (binary_round_aux_bound q e' 8
                (new_location 4503599627370496 (m' mod 4503599627370496))
                Hq0 ltac:(lia) ltac:(lia) ltac:(lia) Hqlt) as B.
  destruct (binary_round_aux prec emax false q e' _) as [sg|sg| |sg mh eh];
    try exact B.
  destruct B as (-> & Heh & Hmh). split; [reflexivity|]. split; [lia|].
  assert (q / 2 ^ (eh - e') < 2 ^ (8 - eh)); [|lia].
  apply Z.div_lt_upper_bound; [apply Z.pow_pos_nonneg; lia|].
  rewrite <- Z.pow_add_r by lia.
  replace (eh - e' + (8 - eh)) with (8 - e') by lia. exact Hqlt.
Qed.

Lemma product_bound (mh : positive) (eh : Z) :
  -1200 <= eh <= 7 -> Zpos mh <= 2 ^ (8 - eh) ->
  exists w, int_of_float (fmul ratio_811_270 (S754_finite false mh eh)) = inr w
            /\ 0 <= w <= 769.
Proof.
  intros Heh Hmh. unfold fmul, SFmul, ratio_811_270. cbn [xorb].
  set (M := Zpos (6763739440365689 * mh)).
  assert (HM : M = 6763739440365689 * Zpos mh) by reflexivity.
  assert (Hp : 0 < 2 ^ (8 - eh)) by (apply Z.pow_pos_nonneg; lia).
  assert (HMlt : M < 2 ^ (10 - (-51 + eh))).
  { replace (10 - (-51 + eh)) with (53 + (8 - eh)) by lia.
    rewrite Z.pow_add_r by lia. rewrite HM.
    apply Z.lt_le_trans with (2 ^ 53 * Zpos mh).
    - apply Z.mul_lt_mono_pos_r; [lia|]. reflexivity.
    - apply Z.mul_le_mono_nonneg_l; [|exact Hmh]. apply Z.pow_nonneg. lia. }
  pose proof (binary_round_aux_bound M (-51 + eh) 10 loc_Exact
                ltac:(lia) ltac:(lia) ltac:(lia) ltac:(lia) HMlt) as B.
  destruct (binary_round_aux prec emax false M (-51 + eh) loc_Exact)
    as [sg|sg| |sg mr er]; try (exfalso; exact B).
  - exists 0. split; [reflexivity|lia].
  - destruct B as (-> & Her & Hmr).
    cbn [int_of_float]. eexists. split; [reflexivity|].
    rewrite Z.shiftl_div_pow2 by lia.
    assert (Hpe : 0 < 2 ^ (- er)) by (apply Z.pow_pos_nonneg; lia).
    split; [apply Z.div_pos; lia|].
    assert (Hfloor : M / 2 ^ (51 - eh) <= 768).
    { apply Z.lt_succ_r. apply Z.div_lt_upper_bound; [apply Z.pow_pos_nonneg; lia|].
      replace (51 - eh) with (43 + (8 - eh)) by lia.
      rewrite Z.pow_add_r by lia. rewrite HM.
      apply Z.lt_le_trans with (6763739440365690 * 2 ^ (8 - eh)).
      - apply Z.le_lt_trans with (6763739440365689 * 2 ^ (8 - eh)).
        + apply Z.mul_le_mono_nonneg_l; [lia|exact Hmh].
        + apply Z.mul_lt_mono_pos_r; [exact Hp|lia].
      - rewrite <- Z.mul_assoc, (Z.mul_comm (2 ^ (8 - eh))), Z.mul_assoc.
        apply Z.mul_le_mono_nonneg_r; [lia|]. vm_compute. discriminate. }
    etransitivity.
    + apply Z.div_le_mono; [exact Hpe|exact Hmr].
    + etransitivity; [apply div_succ_le; exact Hpe|].
      rewrite Z.div_div by lia. rewrite <- Z.pow_add_r by lia.
      replace (er - (-51 + eh) + - er) with (51 - eh) by lia. lia.
Qed.


Lemma valid_finite (m : positive) (e : Z) :
  valid_binary prec emax (S754_finite false m e) = true ->
  Zpos m < 2 ^ 53 /\ -1074 <= e.
Proof.
  cbn [valid_binary]. unfold bounded, canonical_mantissa. intros H.
  apply andb_true_iff in H. destruct H as (H & _). apply Z.eqb_eq in H.
  rewrite fexp_eq in H.
  pose proof (digits2_pos_bounds m) as (_ & B).
  split; [|lia].
  apply Z.lt_le_trans with (2 ^ Zpos (digits2_pos m)); [exact B|].
  apply Z.pow_le_mono_r; lia.
Qed.

Lemma in_range_float (x : float) :
  in_range (Float x) ->
  exists m e, x = S754_finite false m e /\ Zpos m < 2 ^ 53 /\ -1074 <= e <= -44.
Proof.
  intros (Hv & H0 & H270).
  change (float_of_int 0) with (S754_zero false) in H0.
  change (float_of_int 270) with (S754_finite false 4749890231992320 (-44)) in H270.
  destruct x as [s|s| |s m e]; try discriminate H0.
  - destruct s; discriminate.
  - destruct s; [discriminate H0|].
    exists m, e. split; [reflexivity|].
    destruct (valid_finite m e Hv) as (Hm & He). split; [exact Hm|].
    split; [exact He|].
    unfold fle, SFleb, SFcompare in H270.
    apply Z.compare_le_iff. intros C. rewrite C in H270. discriminate H270.
Qed.

Lemma cleanArraySize_float (self : lidar) (x : float) :
  datagram_size self = 811 -> sensor_angle self = 270 ->
  in_range (Float x) ->
  exists w, cleanArraySize self (Float x) = inr w /\ 0 <= w <= 769.
Proof.
  intros Hsize Hangle Hx.
  destruct (in_range_float x Hx) as (m & e & -> & Hm & He).
  unfold cleanArraySize. rewrite Hsize, Hangle.
  change (truediv 811 270) with (@inr exn float ratio_811_270).
  cbn [bind Monad_result Monad_either number_truediv].
  unfold fdiv. change (float_of_int 2) with (S754_finite false 4503599627370496 (-51)).
  cbv iota. change (S754_finite false 4503599627370496 (-51)) with (float_of_int 2).
  cbn [bind Monad_result Monad_either ret].
  pose proof (half_bound m e Hm He) as B.
  destruct (SFdiv prec emax (S754_finite false m e) (float_of_int 2))
    as [s|s| |s mh eh]; try (exfalso; exact B).
  - exists 0. split; [reflexivity|lia].
  - destruct B as (-> & Heh & Hmh). apply product_bound; assumption.
Qed.

Lemma cleanArraySize_table :
  forallb (fun v => match cleanArraySize init (Int (Z.of_nat v)) with
                    | inr w => w =? windowLength (Z.of_nat v)
                    | inl _ => false
                    end) (seq 1 270) = true.
Proof. vm_compute. reflexivity. Qed.

Lemma cleanArraySize_whole_table :
  forallb (fun v => match cleanArraySize init (Float (float_of_int (Z.of_nat v))) with
                    | inr w => w =? windowLength (Z.of_nat v)
                    | inl _ => false
                    end) (seq 1 270) = true.
Proof. vm_compute. reflexivity. Qed.

Lemma cleanArraySize_whole (self : lidar) (degrees : Z) :
  datagram_size self = 811 -> sensor_angle self = 270 ->
  0 < degrees <= 270 ->
  cleanArraySize self (Float (float_of_int degrees)) = inr (windowLength degrees).
Proof.
  intros Hsize Hangle Hv.
  assert (E : cleanArraySize self (Float (float_of_int degrees))
              = cleanArraySize init (Float (float_of_int degrees))).
  { unfold cleanArraySize. rewrite Hsize, Hangle. reflexivity. }
  rewrite E. pose proof cleanArraySize_whole_table as T.
  rewrite forallb_forall in T.
  specialize (T (Z.to_nat degrees)).
  rewrite Z2Nat.id in T by lia.
  assert (Hin : In (Z.to_nat degrees) (seq 1 270)) by (apply in_seq; lia).
  specialize (T Hin).
  destruct (cleanArraySize init (Float (float_of_int degrees))) as [e|w];
    [discriminate|].
  apply Z.eqb_eq in T. congruence.
Qed.

Lemma cleanArraySize_int (self : lidar) (degrees : Z) :
  datagram_size self = 811 -> sensor_angle self = 270 ->
  0 < degrees <= 270 ->
  cleanArraySize self (Int degrees) = inr (windowLength degrees).
Proof.
  intros Hsize Hangle Hv.
  assert (E : cleanArraySize self (Int degrees) = cleanArraySize init (Int degrees)).
  { unfold cleanArraySize. rewrite Hsize, Hangle. reflexivity. }
  rewrite E. pose proof cleanArraySize_table as T.
  rewrite forallb_forall in T.
  specialize (T (Z.to_nat degrees)).
  rewrite Z2Nat.id in T by lia.
  assert (Hin : In (Z.to_nat degrees) (seq 1 270)) by (apply in_seq; lia).
  specialize (T Hin).
  destruct (cleanArraySize init (Int degrees)) as [e|w]; [discriminate|].
  apply Z.eqb_eq in T. congruence.
Qed.

Lemma cleanArraySize_in_range (self : lidar) (viewAngle : number) :
  datagram_size self = 811 -> sensor_angle self = 270 ->
  in_range viewAngle ->
  exists w, cleanArraySize self viewAngle = inr w /\ 0 <= w <= 769.
Proof.
  intros Hsize Hangle Hv. destruct viewAngle as [z|x].
  - exists (windowLength z). split; [apply cleanArraySize_int; assumption|].
    cbn [in_range] in Hv. unfold windowLength. Z.div_mod_to_equations. lia.
  - apply cleanArraySize_float; assumption.
Qed.

Lemma window_bounds (w : Z) :
  0 <= w <= 769 -> 0 <= windowStart w /\ windowStart w + w <= 811.
Proof.
  intros Hw. unfold windowStart. change (811 / 2) with 405.
  destruct (Z.even w); Z.div_mod_to_equations; lia.
Qed.

End Window.

(** C9, as amended.  On an array of 811 samples and a view angle [V] with
    [0 < V <= 270] (an [int] or a [float]; the sensor covering 270 degrees
    with 811 samples), [clean_datagram_by_angle] returns the contiguous
    sub-sequence from [start] to [start + windowLength], where [windowLength]
    is [int((811/270) * (V/2))] as evaluated in binary64 --- for a whole
    number of degrees, given as an [int] or as a [float], exactly
    [floor(811 * V / 540)] --- and [start] is [811 // 2 - windowLength // 2],
    less one when [windowLength] is even; the window lies inside the array
    and has [windowLength] elements.  For [V = 180] the window length is 270. *)
Theorem clean_datagram_by_angle_window (self : lidar) (ds : ndarray) (V : number) :
  datagram_size self = 811 -> sensor_angle self = 270 ->
  length ds = 811%nat -> in_range V ->
  exists w,
    cleanArraySize self V = inr w
    /\ (forall degrees, V = Int degrees -> w = windowLength degrees)
    /\ (forall degrees, 0 < degrees <= 270 -> V = Float (float_of_int degrees) ->
                        w = windowLength degrees)
    /\ 0 <= w
    /\ 0 <= windowStart w
    /\ windowStart w + w <= 811
    /\ clean_datagram_by_angle self ds V
       = inr (firstn (Z.to_nat w) (skipn (Z.to_nat (windowStart w)) ds))
    /\ Z.of_nat (length (firstn (Z.to_nat w) (skipn (Z.to_nat (windowStart w)) ds))) = w
    /\ windowLength 180 = 270.
Proof.
  intros Hsize Hangle Hlen Hv.
  destruct (cleanArraySize_in_range self V Hsize Hangle Hv) as (w & Hw & Hw0).
  destruct (window_bounds w Hw0) as (Hs0 & Hs1).
  assert (Hout : clean_datagram_by_angle self ds V
                 = inr (slice ds (windowStart w) (windowStart w + w))).
  { unfold clean_datagram_by_angle. rewrite Hw.
    cbn [bind Monad_result Monad_either ret]. rewrite Hlen.
    unfold windowStart. change (Z.of_nat 811) with 811. rewrite Zmod_even.
    destruct (Z.even w); cbn [Z.eqb]; do 2 f_equal; lia. }
  destruct (slice_in_range ds (windowStart w) (windowStart w + w))
    as (Hslice & Hlength); [lia|rewrite Hlen; lia|].
  replace (windowStart w + w - windowStart w) with w in * by lia.
  exists w. split; [exact Hw|]. split.
  { intros degrees ->. cbn [in_range] in Hv.
    rewrite (cleanArraySize_int self degrees Hsize Hangle Hv) in Hw.
    congruence. }
  split.
  { intros degrees Hd ->.
    rewrite (cleanArraySize_whole self degrees Hsize Hangle Hd) in Hw.
    congruence. }
  split; [lia|]. split; [exact Hs0|]. split; [exact Hs1|].
  split; [rewrite Hout, Hslice; reflexivity|].
  split; [rewrite <- Hslice, Hlength; lia|reflexivity].
Qed.

Lemma clean_datagram_by_angle_window_witness :
  exists w,
    cleanArraySize init (Int 180) = inr w
    /\ w = 270
    /\ clean_datagram_by_angle init (repeat sentinel 811) (Int 180)
       = inr (firstn (Z.to_nat w) (skipn (Z.to_nat (windowStart w)) (repeat sentinel 811))).
Proof.
  destruct (clean_datagram_by_angle_window init (repeat sentinel 811) (Int 180)
              eq_refl eq_refl (repeat_length sentinel 811))
    as (w & Hw & Hint & _ & _ & _ & _ & Hout & _); [cbn; lia|].
  exists w. split; [exact Hw|]. split; [exact (Hint 180 eq_refl)|exact Hout].
Defined.

(** C9, counterexample.  For the view angle 3.3292231812577064, a [float] in
    range, the exact value of [(811/270) * (V/2)] is just below 5, so its
    floor is 4, while the binary64 evaluation gives 5.0: the window the code
    returns has 5 samples. *)
Lemma clean_datagram_by_angle_float_length :
  in_range (Float view_angle_3_33)
  /\ exactWindowLength view_angle_3_33 = 4
  /\ cleanArraySize init (Float view_angle_3_33) = inr 5
  /\ exists out,
       clean_datagram_by_angle init (repeat sentinel 811) (Float view_angle_3_33)
       = inr out
       /\ length out = 5%nat.
Proof.
  split; [repeat split; vm_compute; reflexivity|].
  split; [vm_compute; reflexivity|].
  split; [vm_compute; reflexivity|].
  eexists. split; vm_compute; reflexivity.
Qed.

(** * Further properties of the code *)

(** ** Framing *)

Section FramingMore.

Lemma datagrams_from_skip (prefix rest : bytes) :
  contains STX prefix = false ->
  datagrams_from UntilSTX (prefix ++ rest) = datagrams_from UntilSTX rest.
Proof.
  unfold contains. induction prefix as [|c prefix IH]; intros H; [reflexivity|].
  cbn [existsb] in H. apply orb_false_iff in H. destruct H as (Hc & H).
  cbn [app datagrams_from]. rewrite Ascii.eqb_sym, Hc. exact (IH H).
Qed.

Lemma datagrams_from_count_ETX (stream : bytes) :
  forall pos, (length (datagrams_from pos stream) <= occurrences ETX stream)%nat.
Proof.
  unfold occurrences.
  induction stream as [|c rest IH]; intros pos; cbn [datagrams_from filter];
    [cbn; lia|].
  rewrite (Ascii.eqb_sym ETX c).
  destruct pos as [|datagram].
  - pose proof (IH UntilSTX) as IH0. pose proof (IH (UntilETX [])) as IH1.
    destruct (Ascii.eqb c STX), (Ascii.eqb c ETX); cbn [length]; lia.
  - destruct (Ascii.eqb c ETX); cbn [length].
    + specialize (IH UntilSTX). lia.
    + apply IH.
Qed.

Lemma datagrams_from_count_STX (stream : bytes) :
  forall pos,
    (length (datagrams_from pos stream)
     <= occurrences STX stream + match pos with UntilSTX => 0 | UntilETX _ => 1 end)%nat.
Proof.
  unfold occurrences.
  induction stream as [|c rest IH]; intros pos; cbn [datagrams_from filter];
    [cbn; lia|].
  rewrite (Ascii.eqb_sym STX c).
  destruct pos as [|datagram].
  - destruct (Ascii.eqb c STX); cbn [length].
    + specialize (IH (UntilETX [])). cbn beta iota in IH. lia.
    + specialize (IH UntilSTX). cbn beta iota in IH. lia.
  - destruct (Ascii.eqb c ETX); cbn [length].
    + specialize (IH UntilSTX). cbn beta iota in IH.
      destruct (Ascii.eqb c STX); cbn [length]; lia.
    + specialize (IH (UntilETX (datagram ++ [c]))). cbn beta iota in IH.
      destruct (Ascii.eqb c STX); cbn [length]; lia.
Qed.

(** Where a datagram yielded from [pos] on [stream] lies in [stream]. *)
Lemma datagrams_from_delimited (stream : bytes) :
  forall pos,
    Forall (fun d =>
              (exists pre post, stream = pre ++ STX :: d ++ ETX :: post)
              \/ (exists stored s1 s2,
                     pos = UntilETX stored /\ stream = s1 ++ ETX :: s2
                     /\ d = stored ++ s1))
           (datagrams_from pos stream).
Proof.
  induction stream as [|c rest IH]; intros pos; cbn [datagrams_from];
    [constructor|].
  assert (Hlater : forall pos',
             Forall (fun d => exists pre post, rest = pre ++ STX :: d ++ ETX :: post)
                    (datagrams_from pos' rest) ->
             Forall (fun d =>
                       (exists pre post, c :: rest = pre ++ STX :: d ++ ETX :: post)
                       \/ (exists stored s1 s2,
                              pos = UntilETX stored /\ c :: rest = s1 ++ ETX :: s2
                              /\ d = stored ++ s1))
                    (datagrams_from pos' rest)).
  { intros pos'. apply Forall_impl. intros d (pre & post & E).
    left. exists (c :: pre), post. rewrite E. reflexivity. }
  destruct pos as [|datagram].
  - destruct (Ascii.eqb_spec c STX) as [->|Hc].
    + eapply Forall_impl; [|exact (IH (UntilETX []))].
      intros d [(pre & post & E)|(stored & s1 & s2 & Hp & E & Hd)].
      * left. exists (STX :: pre), post. rewrite E. reflexivity.
      * injection Hp as <-. left. exists [], s2. rewrite E, Hd. reflexivity.
    + apply Hlater. eapply Forall_impl; [|exact (IH UntilSTX)].
      intros d [H|(stored & s1 & s2 & Hp & _)]; [exact H|discriminate Hp].
  - destruct (Ascii.eqb_spec c ETX) as [->|Hc].
    + constructor.
      * right. exists datagram, [], rest. rewrite app_nil_r. auto.
      * apply Hlater. eapply Forall_impl; [|exact (IH UntilSTX)].
        intros d [H|(stored & s1 & s2 & Hp & _)]; [exact H|discriminate Hp].
    + eapply Forall_impl; [|exact (IH (UntilETX (datagram ++ [c])))].
      intros d [(pre & post & E)|(stored & s1 & s2 & Hp & E & Hd)].
      * left. exists (c :: pre), post. rewrite E. reflexivity.
      * injection Hp as <-. right. exists datagram, (c :: s1), s2.
        rewrite E, Hd, <- app_assoc. auto.
Qed.

Lemma datagrams_from_app (s1 s2 : bytes) :
  forall pos,
    datagrams_from pos (s1 ++ s2)
    = datagrams_from pos s1 ++ datagrams_from (position_after pos s1) s2.
Proof.
  induction s1 as [|c s1 IH]; intros pos; [reflexivity|].
  cbn [app datagrams_from position_after].
  destruct pos as [|datagram].
  - destruct (Ascii.eqb c STX); apply IH.
  - destruct (Ascii.eqb c ETX); [cbn [app]; f_equal|]; apply IH.
Qed.

End FramingMore.

(** X1.  Bytes that precede the first STX are dropped, and a sequence
    [STX payload ETX] whose payload holds no ETX yields exactly [payload],
    after which extraction goes on with the bytes that follow. *)
Theorem datagrams_from_socket_frame (prefix payload rest : bytes) :
  contains STX prefix = false ->
  contains ETX payload = false ->
  datagrams_from_socket [prefix ++ STX :: payload ++ ETX :: rest]
  = payload :: datagrams_from_socket [rest].
Proof.
  intros Hp He. unfold datagrams_from_socket, bytes_from_socket.
  cbn [concat]. rewrite !app_nil_r.
  rewrite (datagrams_from_skip prefix _ Hp). cbn [datagrams_from].
  rewrite Ascii.eqb_refl.
  exact (datagrams_from_payload payload rest He []).
Qed.

Lemma datagrams_from_socket_frame_witness :
  datagrams_from_socket [b "xy" ++ STX :: b "sSN LMDscandata" ++ ETX :: b "z"]
  = b "sSN LMDscandata" :: datagrams_from_socket [b "z"].
Proof.
  apply (datagrams_from_socket_frame (b "xy") (b "sSN LMDscandata") (b "z"));
    reflexivity.
Defined.

(** X2.  Extraction does not depend on where the stream is cut into chunks:
    the datagrams of two successive groups of chunks are those of the first
    group followed by those the second group yields from the position the
    first one ended in. *)
Theorem datagrams_from_socket_app (chunks1 chunks2 : list bytes) :
  datagrams_from_socket (chunks1 ++ chunks2)
  = datagrams_from_socket chunks1
    ++ datagrams_from (position_after UntilSTX (bytes_from_socket chunks1))
                      (bytes_from_socket chunks2).
Proof.
  unfold datagrams_from_socket, bytes_from_socket.
  rewrite concat_app. apply datagrams_from_app.
Qed.

(** X3.  Every yielded datagram has used up one STX and one ETX of the
    stream: there are at most as many datagrams as STX bytes and as ETX
    bytes.  In particular a stream without ETX (or without STX) yields
    nothing, however long it is. *)
Theorem datagrams_from_socket_count (chunks : list bytes) :
  (length (datagrams_from_socket chunks)
   <= occurrences STX (bytes_from_socket chunks))%nat
  /\ (length (datagrams_from_socket chunks)
      <= occurrences ETX (bytes_from_socket chunks))%nat.
Proof.
  unfold datagrams_from_socket. split.
  - pose proof (datagrams_from_count_STX (bytes_from_socket chunks) UntilSTX) as H.
    cbn in H. lia.
  - apply datagrams_from_count_ETX.
Qed.

(** X4.  Every yielded datagram stands in the stream between an STX and the
    next ETX: the stream is [pre ++ STX :: datagram ++ ETX :: post]. *)
Theorem datagrams_from_socket_delimited (chunks : list bytes) :
  Forall (fun d => exists pre post,
              bytes_from_socket chunks = pre ++ STX :: d ++ ETX :: post)
         (datagrams_from_socket chunks).
Proof.
  unfold datagrams_from_socket.
  eapply Forall_impl; [|exact (datagrams_from_delimited _ UntilSTX)].
  intros d [H|(stored & s1 & s2 & Hp & _)]; [exact H|discriminate Hp].
Qed.

(** ** [parse_number] *)

Section ParseMore.

Lemma int_of_bytes_success (base : Z) (s : bytes) (v : Z) :
  int_of_bytes base s = inr v ->
  exists neg s1 v' n rest,
    strip_sign (lstrip s) = (neg, s1)
    /\ scan_digits base (strip_prefix base s1) false 0 0 = Some (v', n, rest)
    /\ lstrip rest = [].
Proof.
  unfold int_of_bytes. destruct (strip_sign (lstrip s)) as [neg s1].
  intros H. exists neg, s1.
  destruct (strip_prefix base s1) as [|a r].
  - destruct (scan_digits base [] false 0 0) as [[[v' [|n']] rest]|];
      try discriminate H.
    destruct (too_many_digits base (S n')); [discriminate H|].
    destruct (lstrip rest) eqn:E; [|discriminate H].
    exists v', (S n'), rest. auto.
  - destruct (scan_digits base (a :: r) false 0 0) as [[[v' [|n']] rest]|];
      destruct a as [[] [] [] [] [] [] [] []]; try discriminate H;
      (destruct (too_many_digits base (S n')); [discriminate H|]);
      (destruct (lstrip rest) eqn:E; [|discriminate H]);
      exists v', (S n'), rest; auto.
Qed.

Lemma int_of_bytes_raises (base : Z) (s : bytes) (e : exn) :
  int_of_bytes base s = inl e -> e = ValueError.
Proof.
  assert (R : forall A (x : A), @ret result _ A x = inl e -> e = ValueError)
    by (intros A x H; discriminate H).
  assert (L : @raise Z ValueError = inl e -> e = ValueError)
    by (intros H; injection H as <-; reflexivity).
  unfold int_of_bytes. destruct (strip_sign (lstrip s)) as [neg s1].
  destruct (strip_prefix base s1) as [|a r].
  - destruct (scan_digits base [] false 0 0) as [[[v' [|n']] rest]|];
      try exact L.
    destruct (too_many_digits base (S n')); [exact L|].
    destruct (lstrip rest); [apply R|exact L].
  - destruct (scan_digits base (a :: r) false 0 0) as [[[v' [|n']] rest]|];
      destruct a as [[] [] [] [] [] [] [] []]; try exact L;
      (destruct (too_many_digits base (S n')); [exact L|]);
      (destruct (lstrip rest); [apply R|exact L]).
Qed.

Lemma lstrip_spaces (s : bytes) :
  exists ws, s = ws ++ lstrip s /\ forallb is_space ws = true.
Proof.
  induction s as [|c s (ws & E & Hws)]; [exists []; auto|].
  cbn [lstrip]. destruct (is_space c) eqn:Hc.
  - exists (c :: ws). split; [cbn [app]; congruence|].
    cbn [forallb]. rewrite Hc, Hws. reflexivity.
  - exists []. auto.
Qed.

Lemma strip_sign_cases (s s1 : bytes) (neg : bool) :
  strip_sign s = (neg, s1) ->
  s = s1 \/ s = "+"%char :: s1 \/ s = "-"%char :: s1.
Proof.
  destruct s as [|c s]; [intros H; inversion H; auto|].
  destruct c as [[] [] [] [] [] [] [] []]; cbn; intros H; inversion H; auto.
Qed.

Lemma scan_digits_used (base : Z) (s : bytes) :
  forall prev acc n v m rest,
    scan_digits base s prev acc n = Some (v, m, rest) ->
    exists used, s = used ++ rest
                 /\ forallb (fun c => is_digit base c || is_underscore c) used = true.
Proof.
  induction s as [|c s IH]; intros prev acc n v m rest H.
  - cbn in H. destruct prev; inversion H; subst. exists []. auto.
  - cbn [scan_digits] in H.
    assert (Hstop : (if prev then None else Some (acc, n, c :: s)) = Some (v, m, rest) ->
                    exists used, c :: s = used ++ rest
                      /\ forallb (fun c => is_digit base c || is_underscore c) used = true).
    { destruct prev; intros E; inversion E; subst. exists []. auto. }
    destruct (is_underscore c) eqn:Hus.
    + destruct prev; [discriminate|].
      destruct (IH _ _ _ _ _ _ H) as (used & E & Hu).
      exists (c :: used). split; [cbn [app]; congruence|].
      cbn [forallb]. rewrite Hus, orb_true_r, Hu. reflexivity.
    + destruct (digit_value c) as [d|] eqn:Hd; [|auto].
      destruct (d <? base) eqn:Hlt; [|auto].
      destruct (IH _ _ _ _ _ _ H) as (used & E & Hu).
      exists (c :: used). split; [cbn [app]; congruence|].
      cbn [forallb]. unfold is_digit at 1. rewrite Hd, Hlt, Hu. reflexivity.
Qed.

End ParseMore.

(** X5.  The only exception [parse_number] raises is [ValueError]. *)
Theorem parse_number_raises_ValueError (tok : bytes) (e : exn) :
  parse_number tok = inl e -> e = ValueError.
Proof.
  unfold parse_number.
  destruct (contains "+" tok || contains "-" tok); apply int_of_bytes_raises.
Qed.

Lemma parse_number_raises_ValueError_witness :
  parse_number (b "-1A") = inl ValueError.
Proof.
  destruct (parse_number (b "-1A")) as [e|v] eqn:E; [|discriminate E].
  rewrite (parse_number_raises_ValueError (b "-1A") e E). reflexivity.
Defined.

(** X6.  A token that contains a sign is accepted only if all its bytes are
    white space, signs, decimal digits or underscores: a signed token with a
    hexadecimal letter or a [0x] prefix is never read as a number. *)
Theorem parse_number_signed_bytes (tok : bytes) (v : Z) :
  has_sign tok = true -> parse_number tok = inr v ->
  forallb signed_byte tok = true.
Proof.
  intros Hs H. unfold parse_number in H. fold (has_sign tok) in H. rewrite Hs in H.
  apply int_of_bytes_success in H.
  destruct H as (neg & s1 & v' & n & rest & Hsign & Hscan & Hrest).
  rewrite strip_prefix_10 in Hscan.
  destruct (lstrip_spaces tok) as (ws & Etok & Hws).
  destruct (scan_digits_used _ _ _ _ _ _ _ _ Hscan) as (used & Eused & Hused).
  destruct (lstrip_spaces rest) as (ws' & Erest & Hws'). rewrite Hrest, app_nil_r in Erest.
  assert (Hsp : forall l, forallb is_space l = true -> forallb signed_byte l = true).
  { intros l Hl. rewrite forallb_forall in *. intros c Hc.
    unfold signed_byte. rewrite (Hl c Hc). reflexivity. }
  assert (Hdg : forallb signed_byte used = true).
  { rewrite forallb_forall in *. intros c Hc. specialize (Hused c Hc).
    unfold signed_byte. apply orb_true_iff in Hused. destruct Hused as [-> | ->];
      rewrite ?orb_true_r; reflexivity. }
  assert (Hs1 : forallb signed_byte s1 = true).
  { rewrite Eused, forallb_app, Hdg, Erest. rewrite (Hsp ws' Hws'). reflexivity. }
  rewrite Etok, forallb_app, (Hsp ws Hws). cbn [andb].
  destruct (strip_sign_cases _ _ _ Hsign) as [-> | [-> | ->]];
    [exact Hs1|cbn [forallb]; rewrite Hs1; reflexivity..].
Qed.

Lemma parse_number_signed_bytes_witness :
  forallb signed_byte (b "-42") = true.
Proof.
  apply (parse_number_signed_bytes (b "-42") (-42)); reflexivity.
Defined.

(** ** [decode_datagram] *)

Section DecoderMore.

Lemma bind_inl_inv {A B : Type} (c : result A) (k : A -> result B) (e : exn) :
  bind c k = inl e -> c = inl e \/ exists x, c = inr x /\ k x = inl e.
Proof.
  destruct c as [e'|x]; cbn; intros H.
  - left. injection H as <-. reflexivity.
  - right. exists x. auto.
Qed.

Lemma text_raises (items : list bytes) (i : nat) (e : exn) :
  (t <- getitem items i ;; decode_ascii t) = inl e -> decode_error e = true.
Proof.
  unfold getitem, decode_ascii. destruct (nth_error items i) as [t|]; cbn.
  - destruct (forallb is_ascii t); intros H; inversion H; reflexivity.
  - intros H; inversion H; reflexivity.
Qed.

Lemma number_raises (items : list bytes) (i : nat) (e : exn) :
  (t <- getitem items i ;; parse_number t) = inl e -> decode_error e = true.
Proof.
  unfold getitem. destruct (nth_error items i) as [t|]; cbn.
  - unfold parse_number.
    destruct (contains "+" t || contains "-" t); intros H;
      apply int_of_bytes_raises in H; subst; reflexivity.
  - intros H; inversion H; reflexivity.
Qed.

Lemma truediv_1000_raises (n : Z) (e : exn) :
  truediv n 1000 = inl e -> e = OverflowError.
Proof.
  unfold truediv. change (1000 =? 0) with false. cbv iota.
  destruct (SFdiv prec emax (int_operand n) (int_operand 1000));
    intros H; inversion H; reflexivity.
Qed.

Lemma sample_raises (t : bytes) (e : exn) :
  sample t = inl e -> decode_error e = true.
Proof.
  unfold sample. intros H. apply bind_inl_inv in H.
  destruct H as [H|(n & _ & H)].
  - unfold parse_number in H.
    destruct (contains "+" t || contains "-" t);
      apply int_of_bytes_raises in H; subst; reflexivity.
  - apply truediv_1000_raises in H. subst. reflexivity.
Qed.

Lemma comprehension_raises {A B : Type} (f : A -> result B) (P : exn -> Prop) :
  (forall x e, f x = inl e -> P e) ->
  forall l e, comprehension f l = inl e -> P e.
Proof.
  intros Hf. induction l as [|x l IH]; intros e H; cbn in H; [discriminate H|].
  apply bind_inl_inv in H. destruct H as [H|(y & _ & H)]; [eapply Hf; eauto|].
  apply bind_inl_inv in H. destruct H as [H|(ys & _ & H)]; [eauto|discriminate H].
Qed.

Lemma gate_None (h : Header) :
  gate h = None ->
  rejected (TypeOfCommand h) (Command h) (DeviceStatus1 h) (DeviceStatus2 h) = true.
Proof. unfold gate. destruct (rejected _ _ _ _); [reflexivity|discriminate]. Qed.

Lemma gate_Some_accepted (h h' : Header) :
  gate h' = Some h ->
  rejected (TypeOfCommand h) (Command h) (DeviceStatus1 h) (DeviceStatus2 h) = false.
Proof.
  unfold gate. destruct (rejected _ _ _ _) eqn:E; [discriminate|].
  intros H. injection H as <-. exact E.
Qed.

Lemma populated_text_ascii (items : list bytes) (h : Header) :
  populated items h -> text_tokens_ascii items = true.
Proof.
  intros (T0 & T1 & _ & _ & T4 & _).
  assert (Hok : forall i v, text_at items i v ->
                            token_ok (forallb is_ascii) items i = true).
  { intros i v (t & Ht & Hv). unfold token_ok. rewrite Ht.
    unfold decode_ascii in Hv. destruct (forallb is_ascii t); [reflexivity|discriminate Hv]. }
  unfold text_tokens_ascii. cbn [forallb text_indices].
  rewrite (Hok _ _ T0), (Hok _ _ T1), (Hok _ _ T4). reflexivity.
Qed.

(** Two token grids that differ only at index 8 and at indices 11 to 23. *)
Lemma slice_same_tail {A : Type} (l l' : list A) (k : nat) (start stop : Z) :
  length l = length l' -> skipn k l = skipn k l' -> Z.of_nat k <= start ->
  slice l start stop = slice l' start stop.
Proof.
  intros Hlen Hskip Hk. unfold slice. rewrite <- Hlen.
  set (len := Z.of_nat (length l)).
  set (lo := slice_bound len start).
  destruct (Z_le_gt_dec (Z.of_nat k) lo) as [Hle|Hgt].
  - replace (Z.to_nat lo) with ((Z.to_nat lo - k) + k)%nat by lia.
    rewrite <- !skipn_skipn, Hskip. reflexivity.
  - assert (Hlo : lo = len).
    { unfold lo, slice_bound in *. destruct (start <? 0) eqn:E;
        [apply Z.ltb_lt in E|apply Z.ltb_ge in E]; lia. }
    rewrite Hlo. unfold len. rewrite Nat2Z.id.
    rewrite skipn_all. rewrite Hlen, skipn_all. reflexivity.
Qed.

End DecoderMore.

(** X7.  Every record that [decode_datagram] returns has passed the gate: its
    command type is ["sSN"], its command ["LMDscandata"] and both its device
    status fields are zero. *)
Theorem decode_datagram_record_valid (datagram : bytes) (h : Header) :
  decode_datagram datagram = inr (Some h) ->
  TypeOfCommand h = "sSN"%string /\ Command h = "LMDscandata"%string
  /\ DeviceStatus1 h = 0 /\ DeviceStatus2 h = 0.
Proof.
  intros H. apply decode_datagram_inv in H. destruct H as (h' & _ & Hg).
  symmetry in Hg. apply gate_Some_accepted in Hg.
  unfold rejected in Hg. rewrite !orb_false_iff, !negb_false_iff in Hg.
  destruct Hg as (((H0 & H1) & H5) & H6).
  apply String.eqb_eq in H0, H1. apply Z.eqb_eq in H5, H6. auto.
Qed.

Lemma decode_datagram_record_valid_witness :
  exists h, decode_datagram telegram3 = inr (Some h)
            /\ TypeOfCommand h = "sSN"%string /\ Command h = "LMDscandata"%string
            /\ DeviceStatus1 h = 0 /\ DeviceStatus2 h = 0.
Proof.
  eexists. split; [vm_compute; reflexivity|].
  exact (decode_datagram_record_valid telegram3 _ eq_refl).
Defined.

(** X8.  The gate is tested last: [decode_datagram] returns [None] only for a
    telegram whose every field it could read (at least 26 tokens, numeric
    tokens that parse, ASCII text tokens) and whose command type, command or
    status fields fail the test.  A telegram of another kind that is shorter
    or does not parse is not skipped. *)
Theorem decode_datagram_None (datagram : bytes) :
  decode_datagram datagram = inr None ->
  grid_long_enough (split " " datagram) = true
  /\ numeric_tokens_parse (split " " datagram) = true
  /\ text_tokens_ascii (split " " datagram) = true
  /\ exists h, populated (split " " datagram) h
               /\ (TypeOfCommand h <> "sSN"%string \/ Command h <> "LMDscandata"%string
                   \/ DeviceStatus1 h <> 0 \/ DeviceStatus2 h <> 0).
Proof.
  intros H. apply decode_datagram_inv in H. destruct H as (h & Hp & Hg).
  destruct (populated_well_formed _ _ Hp) as (Hlong & Hnum).
  split; [exact Hlong|]. split; [exact Hnum|].
  split; [exact (populated_text_ascii _ _ Hp)|].
  exists h. split; [exact Hp|].
  apply rejected_iff. apply gate_None. symmetry. exact Hg.
Qed.

Lemma decode_datagram_None_witness :
  grid_long_enough (split " " telegram_sRA) = true
  /\ numeric_tokens_parse (split " " telegram_sRA) = true.
Proof.
  destruct (decode_datagram_None telegram_sRA) as (H1 & H2 & _);
    [vm_compute; reflexivity|].
  split; assumption.
Defined.

(** X9.  The tokens at index 8 and at indices 11 to 23 are not read: two
    telegrams whose token grids differ only there decode to the same result
    (the same record, [None], or the same exception). *)
Theorem decode_datagram_reserved
    (datagram datagram' : bytes) (pre mid mid' post : list bytes)
    (t8 t8' t9 t10 : bytes) :
  split " " datagram = pre ++ t8 :: t9 :: t10 :: mid ++ post ->
  split " " datagram' = pre ++ t8' :: t9 :: t10 :: mid' ++ post ->
  length pre = 8%nat -> length mid = 13%nat -> length mid' = 13%nat ->
  decode_datagram datagram = decode_datagram datagram'.
Proof.
  intros E E' Hpre Hmid Hmid'.
  do 9 (destruct pre as [|? pre]; try discriminate Hpre).
  do 14 (destruct mid as [|? mid]; try discriminate Hmid).
  do 14 (destruct mid' as [|? mid']; try discriminate Hmid').
  cbn [app] in E, E'.
  assert (Hslice : forall stop,
             slice (split " " datagram) 26 stop = slice (split " " datagram') 26 stop).
  { intros stop. apply (slice_same_tail _ _ 24); [| |lia].
    - rewrite E, E'. reflexivity.
    - rewrite E, E'. reflexivity. }
  unfold decode_datagram. cbv zeta.
  assert (Hget : forall i, In i [0; 1; 2; 3; 4; 5; 6; 7; 9; 10; 24; 25]%nat ->
             getitem (split " " datagram) i = getitem (split " " datagram') i).
  { intros i Hi. rewrite E, E'. cbn [In] in Hi.
    repeat (destruct Hi as [<-|Hi]; [reflexivity|]). destruct Hi. }
  rewrite (Hget 0%nat), (Hget 1%nat), (Hget 2%nat), (Hget 3%nat), (Hget 4%nat),
    (Hget 5%nat), (Hget 6%nat), (Hget 7%nat), (Hget 9%nat), (Hget 10%nat),
    (Hget 24%nat), (Hget 25%nat) by (cbn [In]; tauto).
  cbn [bind Monad_result Monad_either].
  repeat match goal with
         | |- match ?c with inl _ => _ | inr _ => _ end = _ =>
             destruct c; [reflexivity|]
         end.
  rewrite Hslice. reflexivity.
Qed.

Lemma decode_datagram_reserved_witness :
  decode_datagram telegram3 = decode_datagram telegram3_reserved.
Proof.
  apply (decode_datagram_reserved telegram3 telegram3_reserved
           (firstn 8 (split " " telegram3))
           (firstn 13 (skipn 11 (split " " telegram3)))
           (firstn 13 (skipn 11 (split " " telegram3_reserved)))
           (skipn 24 (split " " telegram3))
           (b "7F3D") (b "FFFF") (b "2A1B4C") (b "2A1F00"));
    vm_compute; reflexivity.
Defined.

Lemma decode_datagram_raises_aux (datagram : bytes) (e : exn) :
  decode_datagram datagram = inl e -> decode_error e = true.
Proof.
  unfold decode_datagram. cbv zeta. intros H.
  repeat (apply bind_inl_inv in H;
          destruct H as [H|(? & _ & H)];
          [first [exact (text_raises _ _ _ H) | exact (number_raises _ _ _ H)
                 | exact (comprehension_raises sample _ sample_raises _ _ H)]|]).
  destruct (rejected _ _ _ _); discriminate H.
Qed.

(** X10.  Reading a telegram raises nothing but [IndexError], [ValueError],
    [UnicodeDecodeError] and [OverflowError]; in particular a telegram that
    is not a scan telegram but is too short or does not parse raises one of
    them instead of being skipped. *)
Theorem decode_datagram_raises (datagram : bytes) (e : exn) :
  decode_datagram datagram = inl e ->
  decode_error e = true /\ e <> ZeroDivisionError /\ e <> TypeError.
Proof.
  intros H. apply decode_datagram_raises_aux in H.
  split; [exact H|]. split; intros ->; discriminate H.
Qed.

Lemma decode_datagram_raises_witness :
  decode_error UnicodeDecodeError = true.
Proof.
  exact (proj1 (decode_datagram_raises telegram_serial_ff UnicodeDecodeError eq_refl)).
Defined.

(** ** The samples as floats *)

Section Samples.

Lemma binary_round_aux_shape (sx : bool) (M E : Z) (l : location) :
  0 <= M ->
  match binary_round_aux prec emax sx M E l with
  | S754_nan => False
  | S754_zero s | S754_infinity s | S754_finite s _ _ => s = sx
  end.
Proof.
  intros HM. unfold binary_round_aux, shr_fexp.
  set (n1 := fexp prec emax (Zdigits2 M + E) - E).
  pose proof (shr_m_e (shr_record_of_loc M l) E n1) as S1.
  rewrite shr_record_of_loc_m in S1. specialize (S1 HM).
  destruct (shr (shr_record_of_loc M l) E n1) as [mrs1 e1].
  cbn [fst snd] in S1. destruct S1 as (Hm1 & _).
  pose proof (round_nearest_even_bounds (shr_m mrs1) (loc_of_shr_record mrs1)) as Hr.
  set (m2 := round_nearest_even (shr_m mrs1) (loc_of_shr_record mrs1)) in *.
  assert (Hm1pos : 0 <= shr_m mrs1) by (rewrite Hm1; apply Z.div_pos; lia).
  set (n2 := fexp prec emax (Zdigits2 m2 + e1) - e1).
  pose proof (shr_m_e (shr_record_of_loc m2 loc_Exact) e1 n2) as S2.
  rewrite shr_record_of_loc_m in S2. specialize (S2 ltac:(lia)).
  destruct (shr (shr_record_of_loc m2 loc_Exact) e1 n2) as [mrs2 e2].
  cbn [fst snd] in S2. destruct S2 as (Hm2 & _).
  assert (Hm2pos : 0 <= shr_m mrs2) by (rewrite Hm2; apply Z.div_pos; lia).
  destruct (shr_m mrs2) as [|mr|mr]; [reflexivity| |lia].
  destruct (e2 <=? emax - prec); reflexivity.
Qed.

Lemma SFdiv_shape (sx sy : bool) (mx my : positive) (ex ey : Z) :
  match SFdiv prec emax (S754_finite sx mx ex) (S754_finite sy my ey) with
  | S754_nan => False
  | S754_zero s | S754_infinity s | S754_finite s _ _ => s = xorb sx sy
  end.
Proof.
  unfold SFdiv, SFdiv_core_binary.
  set (e' := Z.min _ _). set (s := ex - ey - e').
  set (m' := match s with
             | Z0 => Zpos mx
             | Zpos _ => Z.shiftl (Zpos mx) s
             | Zneg _ => 0
             end).
  assert (Hm' : 0 <= m').
  { unfold m'. destruct s; [lia| |lia]. apply Z.shiftl_nonneg. lia. }
  assert (Hq : Z.div_eucl m' (Zpos my) = (m' / Zpos my, m' mod Zpos my)).
  { unfold Z.div, Z.modulo. destruct (Z.div_eucl m' (Zpos my)). reflexivity. }
  rewrite Hq. apply binary_round_aux_shape. apply Z.div_pos; lia.
Qed.

(** The quotient of an [int] by 1000 is a number with the sign of the
    dividend. *)
Lemma truediv_1000_shape (n : Z) (v : float) :
  truediv n 1000 = inr v -> is_finite v = true /\ sign_bit v = (n <? 0).
Proof.
  unfold truediv. change (1000 =? 0) with false. cbv iota.
  change (int_operand 1000) with (S754_finite false 1000 0).
  destruct n as [|p|p]; cbn [int_operand].
  - cbn. intros H. injection H as <-. split; reflexivity.
  - pose proof (SFdiv_shape false false p 1000 0 0) as S.
    destruct (SFdiv prec emax _ _) as [s|s| |s m e];
      intros H; try discriminate H; try (exfalso; exact S);
      injection H as <-; subst s; split; reflexivity.
  - pose proof (SFdiv_shape true false p 1000 0 0) as S.
    destruct (SFdiv prec emax _ _) as [s|s| |s m e];
      intros H; try discriminate H; try (exfalso; exact S);
      injection H as <-; subst s; split; reflexivity.
Qed.

Lemma Forall2_Forall_r {A B : Type} (R : A -> B -> Prop) (P : B -> Prop) :
  (forall a b, R a b -> P b) ->
  forall l l', Forall2 R l l' -> Forall P l'.
Proof. intros H l l'. induction 1; constructor; eauto. Qed.

End Samples.

(** X11.  The samples of a returned record are numbers (no NaN, no infinity),
    and a sample read from a token without a sign is not negative: it is
    never the value -1 that the distance filter uses as its mark. *)
Theorem decode_datagram_data_finite (datagram : bytes) (h : Header) :
  decode_datagram datagram = inr (Some h) ->
  Forall (fun v => is_finite v = true) (Data h)
  /\ Forall2 (fun tok v => has_sign tok = false ->
                           sign_bit v = false /\ v <> sentinel)
             (slice (split " " datagram) 26 (26 + NumberOfData h)) (Data h).
Proof.
  intros H. apply decode_datagram_Some in H.
  destruct H as (_ & _ & _ & _ & _ & _ & _ & _ & _ & _ & _ & _ & HD).
  split.
  - eapply Forall2_Forall_r; [|exact HD].
    intros tok v Hs. unfold sample in Hs. apply bind_inr in Hs.
    destruct Hs as (n & _ & Hv). exact (proj1 (truediv_1000_shape n v Hv)).
  - eapply Forall2_impl; [|exact HD].
    intros tok v Hs Hsign. unfold sample in Hs. apply bind_inr in Hs.
    destruct Hs as (n & Hn & Hv).
    pose proof (parse_number_unsigned_nonneg tok n Hsign Hn) as Hpos.
    destruct (truediv_1000_shape n v Hv) as (_ & Hsb).
    assert (Hf : sign_bit v = false).
    { rewrite Hsb. apply Z.ltb_ge. exact Hpos. }
    split; [exact Hf|]. intros ->. discriminate Hf.
Qed.

Lemma decode_datagram_data_finite_witness :
  exists h, decode_datagram telegram3 = inr (Some h)
            /\ Forall (fun v => is_finite v = true) (Data h).
Proof.
  eexists. split; [vm_compute; reflexivity|].
  exact (proj1 (decode_datagram_data_finite telegram3 _ eq_refl)).
Defined.

(** ** [clean_datagram_by_distance] *)

Section DistanceMore.

Lemma flt_nan_r (x : float) : flt x S754_nan = false.
Proof. destruct x; reflexivity. Qed.

Lemma keep_or_sentinel_idem (lo hi x : float) :
  keep_or_sentinel lo hi (keep_or_sentinel lo hi x) = keep_or_sentinel lo hi x.
Proof.
  unfold keep_or_sentinel.
  destruct (flt lo x && flt x hi) eqn:E; [rewrite E; reflexivity|].
  destruct (flt lo sentinel && flt sentinel hi); reflexivity.
Qed.

Lemma keep_or_sentinel_range (lo hi x : float) :
  keep_or_sentinel lo hi x = sentinel
  \/ (flt lo (keep_or_sentinel lo hi x) = true
      /\ flt (keep_or_sentinel lo hi x) hi = true).
Proof.
  unfold keep_or_sentinel. destruct (flt lo x && flt x hi) eqn:E; [|auto].
  apply andb_true_iff in E. auto.
Qed.

End DistanceMore.

(** X12.  Filtering by distance twice is the same as filtering once. *)
Theorem clean_datagram_by_distance_idempotent (self : lidar) (a : ndarray) :
  clean_datagram_by_distance self (clean_datagram_by_distance self a)
  = clean_datagram_by_distance self a.
Proof.
  rewrite !clean_datagram_by_distance_map, map_map.
  apply map_ext. intros x. apply keep_or_sentinel_idem.
Qed.

(** X13.  Whatever the input and the bounds, every value of the filtered array
    is either -1 or lies strictly between the bounds, and none is a NaN. *)
Theorem clean_datagram_by_distance_range (self : lidar) (a : ndarray) :
  Forall (fun y => (y = sentinel
                    \/ (flt (min_distance self) y = true
                        /\ flt y (max_distance self) = true))
                   /\ y <> S754_nan)
         (clean_datagram_by_distance self a).
Proof.
  rewrite clean_datagram_by_distance_map. apply Forall_map.
  apply Forall_forall. intros x _.
  pose proof (keep_or_sentinel_range (min_distance self) (max_distance self) x) as R.
  split; [exact R|]. intros E. rewrite E in R.
  destruct R as [R|(R & _)]; [discriminate R|].
  rewrite flt_nan_r in R. discriminate R.
Qed.

(** X14.  When -1 itself is not strictly between the bounds (as with the
    bounds 0.1 and 3 of [__init__]), the mark is unambiguous: a value of the
    filtered array is -1 exactly where the input value is not strictly
    between the bounds, and is the input value elsewhere. *)
Theorem clean_datagram_by_distance_mark (self : lidar) (a : ndarray) :
  flt (min_distance self) sentinel && flt sentinel (max_distance self) = false ->
  Forall2 (fun x y =>
             (y = sentinel
              <-> flt (min_distance self) x && flt x (max_distance self) = false)
             /\ (y <> sentinel -> y = x))
          a (clean_datagram_by_distance self a).
Proof.
  intros Hs. rewrite clean_datagram_by_distance_map.
  induction a as [|x a IH]; cbn [map]; constructor; [|exact IH].
  unfold keep_or_sentinel.
  destruct (flt (min_distance self) x && flt x (max_distance self)) eqn:E.
  - split; [|reflexivity]. split; [|discriminate].
    intros ->. rewrite E in Hs. discriminate Hs.
  - split; [split; reflexivity|]. intros H. exfalso. apply H. reflexivity.
Qed.

Lemma clean_datagram_by_distance_mark_witness :
  Forall2 (fun x y =>
             (y = sentinel
              <-> flt (min_distance init) x && flt x (max_distance init) = false)
             /\ (y <> sentinel -> y = x))
          [lit 5 100; lit 1 2; lit 5 1]
          (clean_datagram_by_distance init [lit 5 100; lit 1 2; lit 5 1]).
Proof.
  apply (clean_datagram_by_distance_mark init). reflexivity.
Defined.

(** ** [clean_datagram_by_angle] *)

Section AngleMore.

Lemma slice_sublist {A : Type} (l : list A) (start stop : Z) :
  exists pre post, l = pre ++ slice l start stop ++ post.
Proof.
  unfold slice.
  generalize (Z.to_nat (slice_bound (Z.of_nat (length l)) stop
                        - slice_bound (Z.of_nat (length l)) start)).
  generalize (Z.to_nat (slice_bound (Z.of_nat (length l)) start)).
  intros lo k.
  exists (firstn lo l), (skipn k (skipn lo l)).
  rewrite (firstn_skipn k (skipn lo l)). symmetry. apply firstn_skipn.
Qed.

End AngleMore.

(** X15.  For an array of any length and any view angle, the angle filter
    never raises for an index out of range: what it returns is a contiguous
    part of the input (possibly empty, and for a window that does not fit
    not the whole window), and the only exceptions it raises are those of the
    window-length computation. *)
Theorem clean_datagram_by_angle_sublist (self : lidar) (ds : ndarray) (V : number) :
  (forall out, clean_datagram_by_angle self ds V = inr out ->
               exists pre post, ds = pre ++ out ++ post)
  /\ (forall e, clean_datagram_by_angle self ds V = inl e ->
                cleanArraySize self V = inl e).
Proof.
  unfold clean_datagram_by_angle.
  destruct (cleanArraySize self V) as [e'|w]; cbn [bind Monad_result Monad_either ret].
  - split; [discriminate|]. intros e H. injection H as <-. reflexivity.
  - split; [|discriminate]. intros out H. injection H as <-. apply slice_sublist.
Qed.

Lemma clean_datagram_by_angle_sublist_witness :
  exists out pre post,
    clean_datagram_by_angle init (repeat sentinel 100) (Int 180) = inr out
    /\ length out = 86%nat
    /\ repeat sentinel 100 = pre ++ out ++ post.
Proof.
  eexists.
  destruct (proj1 (clean_datagram_by_angle_sublist init (repeat sentinel 100) (Int 180))
              _ eq_refl) as (pre & post & E).
  exists pre, post. split; [reflexivity|]. split; [reflexivity|exact E].
Defined.

(** X16.  On 811 samples and a whole number of degrees [V] with
    [0 < V <= 270], the sample at the midpoint (index 405) is in the window,
    at offset [c = w // 2] for an odd window length [w] and [w // 2 + 1] for
    an even one: an odd window has as many samples on either side of it
    ([w = 2c + 1]), an even one has three more below it than above
    ([w = 2c - 2]). *)
Theorem clean_datagram_by_angle_midpoint (self : lidar) (ds : ndarray) (V : Z) :
  datagram_size self = 811 -> sensor_angle self = 270 ->
  length ds = 811%nat -> 0 < V <= 270 ->
  let w := windowLength V in
  let c := w / 2 + (if Z.even w then 1 else 0) in
  exists out,
    clean_datagram_by_angle self ds (Int V) = inr out
    /\ Z.of_nat (length out) = w
    /\ 0 <= c < w
    /\ nth_error out (Z.to_nat c) = nth_error ds 405
    /\ w = if Z.even w then 2 * c - 2 else 2 * c + 1.
Proof.
  intros Hsize Hangle Hlen Hv w c.
  pose proof (cleanArraySize_int self V Hsize Hangle Hv) as Hw. fold w in Hw.
  assert (Hw0 : 1 <= w <= 405 /\ w <> 2).
  { unfold w, windowLength. Z.div_mod_to_equations. lia. }
  destruct (window_bounds w ltac:(lia)) as (Hs0 & Hs1).
  assert (Hstart : windowStart w = 405 - c).
  { unfold windowStart, c. change (811 / 2) with 405. lia. }
  assert (Hc : 0 <= c < w /\ w = if Z.even w then 2 * c - 2 else 2 * c + 1).
  { unfold c. pose proof (Zmod_even w) as He.
    destruct (Z.even w); Z.div_mod_to_equations; lia. }
  assert (Hout : clean_datagram_by_angle self ds (Int V)
                 = inr (slice ds (windowStart w) (windowStart w + w))).
  { unfold clean_datagram_by_angle. rewrite Hw.
    cbn [bind Monad_result Monad_either ret]. rewrite Hlen.
    unfold windowStart. change (Z.of_nat 811) with 811. rewrite Zmod_even.
    destruct (Z.even w); cbn [Z.eqb]; do 2 f_equal; lia. }
  destruct (slice_in_range ds (windowStart w) (windowStart w + w))
    as (Hslice & Hlength); [lia|rewrite Hlen; lia|].
  replace (windowStart w + w - windowStart w) with w in * by lia.
  exists (slice ds (windowStart w) (windowStart w + w)).
  split; [exact Hout|]. split; [rewrite Hlength; lia|].
  split; [exact (proj1 Hc)|]. split; [|exact (proj2 Hc)].
  rewrite Hslice, nth_error_firstn, nth_error_skipn.
  assert (Hlt : (Z.to_nat c <? Z.to_nat w)%nat = true) by (apply Nat.ltb_lt; lia).
  rewrite Hlt. f_equal. rewrite Hstart. lia.
Qed.

Lemma clean_datagram_by_angle_midpoint_witness :
  exists out,
    clean_datagram_by_angle init (repeat sentinel 811) (Int 180) = inr out
    /\ Z.of_nat (length out) = 270
    /\ nth_error out 136 = nth_error (repeat sentinel 811) 405.
Proof.
  destruct (clean_datagram_by_angle_midpoint init (repeat sentinel 811) 180
              eq_refl eq_refl (repeat_length sentinel 811))
    as (out & Ho & Hl & _ & Hn & _); [lia|].
  exists out. split; [exact Ho|]. split; [exact Hl|exact Hn].
Defined.

(** ** [run] *)

Section LoopMore.

Lemma run_body_same (self self' : lidar) (datagram : bytes) :
  run_body self datagram = inr self' ->
  self' = self /\ decode_datagram datagram = inr None.
Proof.
  unfold run_body. destruct (decode_datagram datagram) as [e|[h|]]; cbn;
    intros H; try discriminate H.
  injection H as <-. auto.
Qed.

Lemma run_body_None (self : lidar) (datagram : bytes) :
  decode_datagram datagram = inr None -> run_body self datagram = inr self.
Proof. intros H. unfold run_body. rewrite H. reflexivity. Qed.

Lemma run_skips (self : lidar) (skipped datagrams : list bytes) :
  stop self = false ->
  Forall (fun d => decode_datagram d = inr None) skipped ->
  run self (skipped ++ datagrams) = run self datagrams.
Proof.
  intros Hs. induction 1 as [|d skipped Hd _ IH]; [reflexivity|].
  cbn [app run]. rewrite Hs, (run_body_None self d Hd). exact IH.
Qed.

End LoopMore.

(** X17.  [run] never changes the object: whatever datagrams arrive and
    however the loop ends, every attribute, the published scan [self.ds]
    included, is as it was when the loop started. *)
Theorem run_object_unchanged (datagrams : list bytes) :
  forall self, fst (fst (run self datagrams)) = self.
Proof.
  induction datagrams as [|d rest IH]; intros self; cbn [run].
  - destruct (stop self); reflexivity.
  - destruct (stop self); [reflexivity|].
    destruct (run_body self d) as [e|self'] eqn:E; [reflexivity|].
    apply run_body_same in E. destruct E as (-> & _). apply IH.
Qed.

(** X18.  Telegrams that [decode_datagram] answers with [None] are skipped:
    on a sequence of such telegrams the loop takes them all and then waits
    for the next one. *)
Theorem run_skips_not_applicable (self : lidar) (datagrams : list bytes) :
  stop self = false ->
  Forall (fun d => decode_datagram d = inr None) datagrams ->
  run self datagrams = (self, Waiting, []).
Proof.
  intros Hs Hd. rewrite <- (app_nil_r datagrams).
  rewrite (run_skips self datagrams [] Hs Hd). cbn [run]. rewrite Hs. reflexivity.
Qed.

Lemma run_skips_not_applicable_witness :
  run init [telegram_sRA; telegram_sRA] = (init, Waiting, []).
Proof.
  apply (run_skips_not_applicable init); [reflexivity|].
  repeat constructor; vm_compute; reflexivity.
Defined.

(** X19.  The loop ends at the first telegram that is not answered with
    [None]: with the exception [decode_datagram] raises on it, or, if it is
    a valid scan telegram, with [TypeError].  The telegrams after it are
    never taken, and the exception is one of [IndexError], [ValueError],
    [UnicodeDecodeError], [OverflowError] and [TypeError]. *)
Theorem run_ends_at_first (self : lidar) (skipped rest : list bytes) (datagram : bytes) :
  stop self = false ->
  Forall (fun d => decode_datagram d = inr None) skipped ->
  decode_datagram datagram <> inr None ->
  exists e,
    run self (skipped ++ datagram :: rest) = (self, Raised e, rest)
    /\ (decode_datagram datagram = inl e
        \/ (e = TypeError /\ exists h, decode_datagram datagram = inr (Some h)))
    /\ (decode_error e = true \/ e = TypeError).
Proof.
  intros Hs Hd Hn. rewrite (run_skips self skipped _ Hs Hd).
  destruct (decode_datagram datagram) as [e|[h|]] eqn:E.
  - exists e. split; [|split].
    + apply run_raises; [exact Hs|]. unfold run_body. rewrite E. reflexivity.
    + left. reflexivity.
    + left. exact (decode_datagram_raises_aux datagram e E).
  - exists TypeError. split; [|split].
    + apply run_raises; [exact Hs|]. exact (run_body_valid_raises self datagram h E).
    + right. split; [reflexivity|]. exists h. reflexivity.
    + right. reflexivity.
  - exfalso. apply Hn. reflexivity.
Qed.

Lemma run_ends_at_first_witness :
  exists e,
    run init ([telegram_sRA] ++ telegram3 :: [telegram3]) = (init, Raised e, [telegram3])
    /\ (decode_error e = true \/ e = TypeError).
Proof.
  assert (H1 : stop init = false) by reflexivity.
  assert (H2 : Forall (fun d => decode_datagram d = inr None) [telegram_sRA])
    by (repeat constructor; vm_compute; reflexivity).
  assert (H3 : decode_datagram telegram3 <> inr None)
    by (vm_compute; discriminate).
  destruct (run_ends_at_first init [telegram_sRA] [telegram3] telegram3 H1 H2 H3)
    as (e & Hr & _ & He).
  exists e. split; [exact Hr|exact He].
Defined.

(** ** Telegrams of a single token *)

Section SingleToken.

Lemma split_no_space (s : bytes) :
  contains " " s = false -> split " " s = [s].
Proof.
  unfold contains. induction s as [|c s IH]; intros H; [reflexivity|].
  cbn [existsb] in H. apply orb_false_iff in H. destruct H as (Hc & H).
  cbn [split]. rewrite Ascii.eqb_sym, Hc, (IH H). reflexivity.
Qed.

End SingleToken.

(** X20.  A datagram without a space, the empty datagram of an [STX ETX] pair
    included, is a single token: [decode_datagram] raises [IndexError] on it
    when its bytes are ASCII and [UnicodeDecodeError] otherwise, and [run]
    ends with that exception. *)
Theorem decode_datagram_single_token (self : lidar) (datagram : bytes) (rest : list bytes) :
  contains " " datagram = false ->
  stop self = false ->
  let e := if forallb is_ascii datagram then IndexError else UnicodeDecodeError in
  decode_datagram datagram = inl e
  /\ run self (datagram :: rest) = (self, Raised e, rest).
Proof.
  intros Hsp Hs e.
  assert (Hd : decode_datagram datagram = inl e).
  { unfold decode_datagram, e. rewrite (split_no_space datagram Hsp).
    cbn [getitem nth_error bind Monad_result Monad_either ret].
    unfold decode_ascii. destruct (forallb is_ascii datagram); reflexivity. }
  split; [exact Hd|].
  apply run_raises; [exact Hs|]. unfold run_body. rewrite Hd. reflexivity.
Qed.

Lemma decode_datagram_single_token_witness :
  datagrams_from_socket [[STX; ETX]] = [[]]
  /\ decode_datagram [] = inl IndexError
  /\ run init [[]] = (init, Raised IndexError, []).
Proof.
  split; [reflexivity|].
  exact (decode_datagram_single_token init [] [] eq_refl eq_refl).
Defined.
